(** * BotMesero (main.py): a shallow embedding of the Telegram ordering bot

    The handlers of [main.py] ([start], [handle_text], [button],
    [show_categories], [show_products], [show_most_ordered_product]) are
    embedded as computations in a small state-and-exception monad whose
    state holds the per-chat [chat_data] store and the trace of every
    outside call (Telegram API, OpenAI, database, logger).  Python [str]
    values are sequences of Unicode code points. *)

From Stdlib Require Import ZArith NArith Ascii String List Bool Lia.
From Stdlib Require Import DecimalN DecimalFacts.
From stdpp Require Import base option list gmap.

Local Open Scope list_scope.

(* ===================================================================== *)
(** ** Python [str]: code-point sequences and the builtins the bot uses   *)
(* ===================================================================== *)

Module Py.

(** A Python [str] is a sequence of code points. *)
Definition str := list N.

(** Source literals are written as UTF-8 text; [lit] decodes them into the
    code points that the Python literal denotes. *)
Fixpoint bytes_of (s : string) : list N :=
  match s with
  | EmptyString => []
  | String a s' => N_of_ascii a :: bytes_of s'
  end.

Definition cont (b : N) : N := N.land b 63.

Fixpoint utf8_decode (bs : list N) : str :=
  match bs with
  | [] => []
  | b0 :: r0 =>
      if (b0 <? 128)%N then b0 :: utf8_decode r0
      else if (b0 <? 224)%N then
        match r0 with
        | b1 :: r1 =>
            N.lor (N.shiftl (N.land b0 31) 6) (cont b1) :: utf8_decode r1
        | _ => []
        end
      else if (b0 <? 240)%N then
        match r0 with
        | b1 :: b2 :: r2 =>
            N.lor (N.shiftl (N.land b0 15) 12)
              (N.lor (N.shiftl (cont b1) 6) (cont b2)) :: utf8_decode r2
        | _ => []
        end
      else
        match r0 with
        | b1 :: b2 :: b3 :: r3 =>
            N.lor (N.shiftl (N.land b0 7) 18)
              (N.lor (N.shiftl (cont b1) 12)
                 (N.lor (N.shiftl (cont b2) 6) (cont b3))) :: utf8_decode r3
        | _ => []
        end
  end.

Definition lit (s : string) : str := utf8_decode (bytes_of s).

(** [s.startswith(prefix)] *)
Fixpoint startswith (s prefix : str) : bool :=
  match prefix, s with
  | [], _ => true
  | _ :: _, [] => false
  | p :: prefix', c :: s' => (c =? p)%N && startswith s' prefix'
  end.

(** [sub in s] *)
Fixpoint contains (sub s : str) : bool :=
  match s with
  | [] => startswith [] sub
  | _ :: s' => startswith s sub || contains sub s'
  end.

(** [s.split(sep)] for a separator of one code point (the bot only splits
    on ["_"]).  The result always has at least one segment. *)
Fixpoint split (sep : N) (s : str) : list str :=
  match s with
  | [] => [[]]
  | c :: s' =>
      if (c =? sep)%N then [] :: split sep s'
      else match split sep s' with
           | seg :: segs => (c :: seg) :: segs
           | [] => [[c]]
           end
  end.

(** [sep.join(parts)] *)
Fixpoint join (sep : str) (parts : list str) : str :=
  match parts with
  | [] => []
  | [p] => p
  | p :: ps => p ++ sep ++ join sep ps
  end.

(** [str(n)] for a non-negative integer: its decimal digits. *)
Fixpoint uint_codes (d : Decimal.uint) : str :=
  match d with
  | Decimal.Nil => []
  | Decimal.D0 d => 48%N :: uint_codes d
  | Decimal.D1 d => 49%N :: uint_codes d
  | Decimal.D2 d => 50%N :: uint_codes d
  | Decimal.D3 d => 51%N :: uint_codes d
  | Decimal.D4 d => 52%N :: uint_codes d
  | Decimal.D5 d => 53%N :: uint_codes d
  | Decimal.D6 d => 54%N :: uint_codes d
  | Decimal.D7 d => 55%N :: uint_codes d
  | Decimal.D8 d => 56%N :: uint_codes d
  | Decimal.D9 d => 57%N :: uint_codes d
  end.

Definition str_of_N (n : N) : str := uint_codes (N.to_uint n).

Definition minus_sign : N := 45%N.
Definition plus_sign : N := 43%N.
Definition underscore : N := 95%N.
Definition point : N := 46%N.

(** [str(z)] for an [int]. *)
Definition str_of_Z (z : Z) : str :=
  match z with
  | Zneg p => minus_sign :: str_of_N (Npos p)
  | _ => str_of_N (Z.to_N z)
  end.

Definition is_ascii_digit (c : N) : bool := (48 <=? c)%N && (c <=? 57)%N.

(** *** Builtins that depend on the Unicode character database

    [str.lower], [str.strip] and [int] consult the Unicode tables of the
    interpreter.  The tables are taken as parameters: [lower] is
    [str.lower] itself, [isspace] the white-space test of [str.strip],
    [int_space] and [int_digit] the white-space test and the decimal value
    that [int] assigns to a code point. *)
Record unicode := {
  lower : str -> str;
  isspace : N -> bool;
  int_space : N -> bool;
  int_digit : N -> option N
}.

Fixpoint dropwhile (f : N -> bool) (s : str) : str :=
  match s with
  | c :: s' => if f c then dropwhile f s' else s
  | [] => []
  end.

Section Builtins.
Variable U : unicode.

(** [s.strip()] *)
Definition lstrip (s : str) : str := dropwhile (isspace U) s.
Definition strip (s : str) : str := reverse (lstrip (reverse (lstrip s))).

(** The digit loop of [int(s)], entered after a first digit: further
    digits, each optionally preceded by one underscore.  Returns the
    value and the unread rest. *)
Fixpoint int_digits (acc : N) (s : str) : option (N * str) :=
  match s with
  | [] => Some (acc, [])
  | c :: s' =>
      match int_digit U c with
      | Some d => int_digits (10 * acc + d)%N s'
      | None =>
          if (c =? underscore)%N then
            match s' with
            | c' :: s'' =>
                match int_digit U c' with
                | Some d => int_digits (10 * acc + d)%N s''
                | None => None
                end
            | [] => None
            end
          else Some (acc, s)
      end
  end.

Definition int_magnitude (s : str) : option (N * str) :=
  match s with
  | c :: s' =>
      match int_digit U c with
      | Some d => int_digits d s'
      | None => None
      end
  | [] => None
  end.

(** [int(s)]: leading white space, an optional sign, the digits,
trailing white space, and nothing else; [None] is [ValueError].  (The
interpreter's limit on the number of digits is out of reach: a callback
token has at most 64 bytes.) *)
Definition int (s : str) : option Z :=
  let s1 := dropwhile (int_space U) s in
  let '(neg, s2) :=
    match s1 with
    | c :: r => if (c =? minus_sign)%N then (true, r)
                else if (c =? plus_sign)%N then (false, r)
                else (false, s1)
    | [] => (false, s1)
    end in
  match int_magnitude s2 with
  | Some (n, rest) =>
      match dropwhile (int_space U) rest with
      | [] => Some (if neg then (- Z.of_N n)%Z else Z.of_N n)
      | _ :: _ => None
      end
  | None => None
  end.
End Builtins.

(** The tables restricted to Latin-1 text: enough to evaluate the bot on
    concrete Spanish messages. *)
Definition lower_latin1_char (c : N) : N :=
  if ((65 <=? c) && (c <=? 90))%N then (c + 32)%N
  else if ((192 <=? c) && (c <=? 222) && negb (c =? 215))%N then (c + 32)%N
  else c.

Definition ascii_space (c : N) : bool :=
  ((9 <=? c) && (c <=? 13) || (c =? 32))%N.

Definition latin1 : unicode := {|
  lower := map lower_latin1_char;
  isspace := fun c => ascii_space c || ((28 <=? c) && (c <=? 31))%N
                      || (c =? 133)%N || (c =? 160)%N;
  int_space := fun c => ascii_space c || (c =? 133)%N || (c =? 160)%N;
  int_digit := fun c => if is_ascii_digit c then Some (c - 48)%N else None
|}.

End Py.

Import Py.

(* ===================================================================== *)
(** ** Data model                                                          *)
(* ===================================================================== *)

(** The value of a [Numeric(10, 2)] column as Python reads it: a
    [Decimal], which is a finite number (sign, coefficient, exponent), an
    infinity, or a quiet or signaling NaN with its payload (0 for none). *)
Inductive Decimal :=
| Finite (sign : bool) (coeff : N) (exp : Z)
| Infinity (sign : bool)
| NaN (sign : bool) (signaling : bool) (payload : N).

(** Rows of the mapped tables.  Primary keys are integers; the other
    integer and numeric columns are nullable ([None] is SQL NULL). *)
Record Category := { c_id : Z; c_name : str; c_slug : str }.

Record Product := {
  p_id : Z;
  p_name : str;
  p_price : option Decimal;
  p_image : str;
  p_categoryId : option Z
}.

Record Order := { o_id : Z }.

Record OrderProducts := {
  op_id : Z;
  op_orderId : option Z;
  op_productId : option Z;
  op_quantity : option Z
}.

(** The database: the rows of the four tables and two traits of the
    engine, the rank [tie_rank] by which it emits groups that an
    [ORDER BY] leaves tied (smaller first), and the integers [fits] that
    its driver binds and its integer columns hold. *)
Record database := {
  Category_rows : list Category;
  Product_rows : list Product;
  orders_rows : list Order;
  OrderProducts_rows : list OrderProducts;
  tie_rank : Product -> nat;
  fits : Z -> bool;
  rows_fit :
    Forall (fun p => match p_categoryId p with
                     | Some c => fits c = true
                     | None => True
                     end) Product_rows
}.

(** One entry of a conversation history: [{"role": ..., "content": ...}]. *)
Inductive role := user | assistant | system.

Record turn := { t_role : role; t_content : str }.

(** The parts of a Telegram [Update] the handlers read.  A message that
    reaches them has a sender and a text; a callback query comes from a
    button under a message of the bot and carries the button's token. *)
Record User := { first_name : str }.

Record Message := { from_user : User; chat_id : Z; text : str }.

Record CallbackQuery := { cq_from_user : User; cq_message : Message; data : str }.

Record Update := { message : option Message; callback_query : option CallbackQuery }.

Record InlineKeyboardButton := { b_text : str; callback_data : str }.

Definition InlineKeyboardMarkup := list (list InlineKeyboardButton).

(** [text/responses.json] and [text/rulesGPT.json] are read at start-up and
    are not part of the sources: their entries are parameters.
    [greeting_message] stands for
    [responses["greeting_message"].format(user_first_name=_, chat_id=_)]. *)
Record catalog := {
  greeting_message : str -> str -> str;
  menu_message : str;
  pedido_response : str;
  other_questions_message : str;
  tiempo_pedido_response : str;
  orden_mal_response : str;
  app_no_abre_response : str;
  info_proporcionada_response : str;
  rules : list str
}.

(* ===================================================================== *)
(** ** Effects                                                             *)
(* ===================================================================== *)

Inductive exn :=
| AttributeError | IndexError | ValueError | TypeError | KeyError | OverflowError
| OpenAIError | TelegramError | DBAPIError.

Inductive level := INFO | WARNING | ERROR.

Inductive log_msg :=
| HandlingStart
| NoMessageOrCallback
| ChatId (c : Z)
| ReceivedMessage (m : str)
| ErrorGenerating (e : exn)
| CallbackDataReceived (d : str)
| ReturningToCategories
| FetchingCategories
| FoundCategories (l : list Category)
| FetchingProducts (c : Z)
| FoundProducts (l : list Product)
| FetchingMostOrdered
| MostOrdered (p : option Product).

Inductive sql :=
| SelectCategory
| SelectProductByCategory (category_id : Z)
| SelectMostOrderedProduct.

(** Whether the driver binds the parameter of a query. *)
Definition binds (d : database) (q : sql) : bool :=
  match q with
  | SelectProductByCategory category_id => fits d category_id
  | _ => true
  end.

(** Every call that leaves the handler, in program order. *)
Inductive event :=
| Log (l : level) (m : log_msg)
| Answer
| ReplyText (chat : Z) (txt : str) (parse_mode : option str)
    (reply_markup : option InlineKeyboardMarkup)
| EditText (chat : Z) (txt : str) (parse_mode : option str)
    (reply_markup : option InlineKeyboardMarkup)
| Execute (q : sql)
| ChatCompletionCreate (model : str) (messages : list turn).

(** What [openai.ChatCompletion.create] gives back: an exception, or a
    response whose [choices] each carry a ['content'] (or none). *)
Inductive completion := APIFailure | Response (choices : list (option str)).

(** The outside world during one handler call: the clock, the database
    ([None] when the engine fails), the answer of the completion API to a
    prompt, and whether a Telegram call succeeds, given the calls made
    before it. *)
Record env := {
  current_hour : Z;
  db : option database;
  chat_completion : list turn -> completion;
  api_ok : list event -> event -> bool
}.

(** The state the handlers thread: [context.chat_data] of every chat (the
    key ["conversation_history"] is absent when the chat has no entry) and
    the calls made so far. *)
Record world := {
  chat_data : gmap Z (list turn);
  trace : list event
}.

Inductive result (A : Type) := Ok (a : A) | Raise (e : exn).
Arguments Ok {A} a.
Arguments Raise {A} e.

Definition M (A : Type) : Type := world -> result A * world.

Definition ret {A} (a : A) : M A := fun w => (Ok a, w).

Definition bind {A B} (m : M A) (k : A -> M B) : M B :=
  fun w => match m w with
           | (Ok a, w') => k a w'
           | (Raise e, w') => (Raise e, w')
           end.

Definition raise {A} (e : exn) : M A := fun w => (Raise e, w).

(** [try: body / except Exception as e: handler e]: the state changes made
    by [body] before it raised are kept. *)
Definition try_except {A} (body : M A) (handler : exn -> M A) : M A :=
  fun w => match body w with
           | (Ok a, w') => (Ok a, w')
           | (Raise e, w') => handler e w'
           end.

Definition emit (ev : event) : M unit :=
  fun w => (Ok tt, {| chat_data := chat_data w; trace := trace w ++ [ev] |}).

Declare Scope py_scope.
Delimit Scope py_scope with py.
Notation "x <- m ;; k" := (bind m (fun x => k))
  (at level 100, m at next level, right associativity) : py_scope.
Notation "m ;; k" := (bind m (fun _ => k))
  (at level 100, right associativity) : py_scope.
Local Open Scope py_scope.

Definition log (l : level) (m : log_msg) : M unit := emit (Log l m).

(* ===================================================================== *)
(** ** The program                                                         *)
(* ===================================================================== *)

(** [get_greeting]; the argument is [datetime.now().hour]. *)
Definition get_greeting (current_hour : Z) : str :=
  if ((5 <=? current_hour) && (current_hour <? 12))%Z then lit "Buenos días"
  else if ((12 <=? current_hour) && (current_hour <? 18))%Z then lit "Buenas tardes"
  else lit "Buenas noches".

(** [f"{price:.2f}"] on a finite [Decimal]: the value is brought to
    exponent -2 (rounding half to even) and written with its sign, its
    integer digits, a point and the two last digits. *)
Definition rescale2 (coeff : N) (exp : Z) : N :=
  if (-2 <=? exp)%Z then (coeff * 10 ^ Z.to_N (exp + 2))%N
  else
    let m := (10 ^ Z.to_N (-2 - exp))%N in
    let q := (coeff / m)%N in
    let r := (coeff mod m)%N in
    if ((m <? 2 * r) || ((2 * r =? m) && N.odd q))%N then (q + 1)%N else q.

Definition digit (n : N) : N := (48 + n mod 10)%N.

Definition format_sign (sign : bool) : str := if sign then [minus_sign] else [].

(** [f"{price:.2f}"]: an infinity and a NaN are written by name, with
    their sign, a NaN with its payload; the precision plays no part. *)
Definition format_2f (d : Decimal) : str :=
  match d with
  | Finite sign coeff exp =>
      let q := rescale2 coeff exp in
      format_sign sign ++ str_of_N (q / 100) ++ [point; digit (q / 10); digit q]
  | Infinity sign => format_sign sign ++ lit "Infinity"
  | NaN sign signaling payload =>
      format_sign sign ++ (if signaling then lit "sNaN" else lit "NaN")
        ++ (if (payload =? 0)%N then [] else str_of_N payload)
  end.

(** [f"{x.price:.2f}"]: formatting [None] raises [TypeError]. *)
Definition format_price (price : option Decimal) : M str :=
  match price with
  | Some d => ret (format_2f d)
  | None => raise TypeError
  end.

(** The object whose [edit_message_text] a view calls: the callback query
    itself, or the [FakeQuery] class that [handle_text] builds around
    [update.message.reply_text]. *)
Inductive query_like := RealQuery (q : CallbackQuery) | FakeQuery (m : Message).

(** *** The persistence queries *)

(** [select(Category)] *)
Definition select_Category (d : database) : list Category := Category_rows d.

(** [select(Product).filter(Product.categoryId == category_id)] *)
Definition select_Product_by_category (d : database) (category_id : Z) : list Product :=
  filter (fun p => p_categoryId p = Some category_id) (Product_rows d).

(** [select(Product).join(OrderProducts).group_by(Product.id)]: the
    order-lines joined to a product, and one group per product that has
    some ([Product.id] is the primary key), with
    [func.count(OrderProducts.id)]. *)
Definition order_lines (d : database) (p : Product) : list OrderProducts :=
  filter (fun o => op_productId o = Some (p_id p)) (OrderProducts_rows d).

Definition count_lines (d : database) (p : Product) : nat := length (order_lines d p).

Definition join_group_by_id (d : database) : list (Product * nat) :=
  filter (fun g => 0 < g.2) (map (fun p => (p, count_lines d p)) (Product_rows d)).

(** [.order_by(func.count(OrderProducts.id).desc())]: the query names no
    second key, so groups of equal count come in the order the engine
    gives them, by [rank]. *)
Fixpoint insert_desc (rank : Product -> nat) (g : Product * nat)
    (l : list (Product * nat)) : list (Product * nat) :=
  match l with
  | [] => [g]
  | h :: t =>
      if (h.2 <? g.2) || ((h.2 =? g.2) && (rank g.1 <=? rank h.1))
      then g :: l else h :: insert_desc rank g t
  end.

Definition order_by_count_desc (rank : Product -> nat) (l : list (Product * nat))
    : list (Product * nat) :=
  foldr (insert_desc rank) [] l.

(** [.limit(1)], then [result.scalars().first()] *)
Definition select_most_ordered_product (d : database) : option Product :=
  fst <$> head (take 1 (order_by_count_desc (tie_rank d) (join_group_by_id d))).

Definition button_row (label data : str) : list InlineKeyboardButton :=
  [ {| b_text := label; callback_data := data |} ].

(** [get_otros_keyboard] *)
Definition get_otros_keyboard : InlineKeyboardMarkup :=
  [ button_row (lit "¿Cuánto tiempo demora en llegar mi pedido? ⏳") (lit "tiempo_pedido");
    button_row (lit "¿Cuál es el producto más pedido de este establecimiento? 📊")
      (lit "producto_mas_pedido");
    button_row (lit "Puse mal una orden ¿Qué puedo hacer? 😬❓") (lit "orden_mal");
    button_row (lit "El aplicativo no abre. 😖") (lit "app_no_abre");
    button_row (lit "Sobre la información Proporcionada 🤔:") (lit "info_proporcionada");
    button_row (lit "Regresar al Inicio ↩") (lit "return_start") ].

Definition return_otros_keyboard : InlineKeyboardMarkup :=
  [ button_row (lit "Regresar a las Preguntas ↩") (lit "return_otros") ].

Definition apology : str := lit "Lo siento, algo salió mal al procesar tu solicitud.".
Definition no_categories : str := lit "No hay categorías disponibles.".
Definition no_products : str := lit "No hay productos disponibles en esta categoría.".
Definition no_most_ordered : str :=
  lit "No se encontró información sobre el producto más pedido.".
Definition most_ordered_keywords : list str :=
  [ lit "producto más pedido"; lit "orden más pedida"; lit "producto más vendido" ].

Section Program.
Variable U : unicode.
Variable R : catalog.
Variable E : env.

(** [system_context] *)
Definition system_context : turn :=
  {| t_role := system; t_content := join (lit " ") (rules R) |}.

(** A Telegram API call: it is attempted, and raises when the API does. *)
Definition call (ev : event) : M unit :=
  fun w => (emit ev ;; if api_ok E (trace w) ev then ret tt else raise TelegramError) w.

(** [async with SessionLocal() ... session.execute(q)]: the engine may
    fail, and the driver raises on an integer parameter it cannot bind. *)
Definition execute (q : sql) : M database :=
  emit (Execute q) ;;
  match db E with
  | Some d => if binds d q then ret d else raise OverflowError
  | None => raise DBAPIError
  end.

Definition reply_text (m : Message) (txt : str) (parse_mode : option str)
    (markup : option InlineKeyboardMarkup) : M unit :=
  call (ReplyText (chat_id m) txt parse_mode markup).

Definition edit_text (m : Message) (txt : str) (parse_mode : option str)
    (markup : option InlineKeyboardMarkup) : M unit :=
  call (EditText (chat_id m) txt parse_mode markup).

(** [query.edit_message_text(text=..., reply_markup=...)] *)
Definition edit_message_text (query : query_like) (txt : str)
    (markup : option InlineKeyboardMarkup) : M unit :=
  match query with
  | RealQuery q => edit_text (cq_message q) txt None markup
  | FakeQuery m => reply_text m txt None markup
  end.

(** The first [if]/[elif]/[else] of [start]: where the name and the chat
    identifier are taken from. *)
Definition start_origin (update : Update) : option (str * Z) :=
  match message update with
  | Some m => Some (first_name (from_user m), chat_id m)
  | None =>
      match callback_query update with
      | Some q => Some (first_name (cq_from_user q), chat_id (cq_message q))
      | None => None
      end
  end.

(** The later [if update.message ... elif update.callback_query ...]. *)
Definition start_send (update : Update) (txt : str) (parse_mode : option str)
    (markup : option InlineKeyboardMarkup) : M unit :=
  match message update with
  | Some m => reply_text m txt parse_mode markup
  | None =>
      match callback_query update with
      | Some q => edit_text (cq_message q) txt parse_mode markup
      | None => ret tt
      end
  end.

Definition start_keyboard : InlineKeyboardMarkup :=
  [ button_row (lit "Cuál es el menú de hoy 📋") (lit "menu");
    button_row (lit "Cómo puedo realizar un pedido 📑❓") (lit "pedido");
    button_row (lit "Preguntas acerca del Bot 🤖⁉") (lit "otros") ].

Definition start (update : Update) : M unit :=
  log INFO HandlingStart ;;
  match start_origin update with
  | None => log WARNING NoMessageOrCallback
  | Some (user_first_name, chat) =>
      let bot_name := lit "BotMesero" in
      let greeting := get_greeting (current_hour E) in
      log INFO (ChatId chat) ;;
      let greeting_text :=
        greeting_message R user_first_name (lit "`" ++ str_of_Z chat ++ lit "`") in
      start_send update greeting_text (Some (lit "Markdown")) None ;;
      start_send update (menu_message R) None (Some start_keyboard)
  end.

Definition show_categories (query : query_like) : M unit :=
  log INFO FetchingCategories ;;
  d <- execute SelectCategory ;;
  let categories := select_Category d in
  log INFO (FoundCategories categories) ;;
  match categories with
  | [] => edit_message_text query no_categories None
  | _ :: _ =>
      let keyboard :=
        map (fun c => button_row (c_name c) (lit "category_" ++ str_of_Z (c_id c)))
          categories
        ++ [ button_row (lit "Regresar al Inicio ↩") (lit "return_start") ] in
      edit_message_text query (lit "Selecciona una categoría:") (Some keyboard)
  end.

(** The body of the [for product in products] loop. *)
Definition product_button (p : Product) : M (list InlineKeyboardButton) :=
  price <- format_price (p_price p) ;;
  ret (button_row (p_name p ++ lit " - $" ++ price) (lit "product_" ++ str_of_Z (p_id p))).

Fixpoint product_buttons (products : list Product) : M InlineKeyboardMarkup :=
  match products with
  | [] => ret []
  | p :: ps =>
      row <- product_button p ;;
      rows <- product_buttons ps ;;
      ret (row :: rows)
  end.

Definition show_products (query : query_like) (category_id : Z) : M unit :=
  log INFO (FetchingProducts category_id) ;;
  d <- execute (SelectProductByCategory category_id) ;;
  let products := select_Product_by_category d category_id in
  log INFO (FoundProducts products) ;;
  match products with
  | [] => edit_message_text query no_products None
  | _ :: _ =>
      rows <- product_buttons products ;;
      let keyboard :=
        rows ++ [ button_row (lit "Regresar a Categorías ↩") (lit "return_categories") ] in
      edit_message_text query (lit "Selecciona un producto:") (Some keyboard)
  end.

Definition show_most_ordered_product (query : query_like) : M unit :=
  log INFO FetchingMostOrdered ;;
  d <- execute SelectMostOrderedProduct ;;
  let most_ordered_product := select_most_ordered_product d in
  log INFO (MostOrdered most_ordered_product) ;;
  response <-
    match most_ordered_product with
    | Some p =>
        price <- format_price (p_price p) ;;
        ret (lit "El producto más pedido es " ++ p_name p
             ++ lit " a un precio de $" ++ price ++ lit ".")
    | None => ret no_most_ordered
    end ;;
  edit_message_text query response (Some return_otros_keyboard).

(** *** Conversation state: [context.chat_data["conversation_history"]] *)

(** [if "conversation_history" not in context.chat_data: ... = []] *)
Definition init_history (chat : Z) : M unit :=
  fun w =>
    match chat_data w !! chat with
    | Some _ => (Ok tt, w)
    | None => (Ok tt, {| chat_data := <[chat := []]> (chat_data w); trace := trace w |})
    end.

(** [context.chat_data["conversation_history"].append(t)] *)
Definition append_history (chat : Z) (t : turn) : M unit :=
  fun w =>
    match chat_data w !! chat with
    | Some h =>
        (Ok tt, {| chat_data := <[chat := h ++ [t]]> (chat_data w); trace := trace w |})
    | None => (Raise KeyError, w)
    end.

(** [context.chat_data["conversation_history"]] *)
Definition read_history (chat : Z) : M (list turn) :=
  fun w =>
    match chat_data w !! chat with
    | Some h => (Ok h, w)
    | None => (Raise KeyError, w)
    end.

(** [[system_context] + history] *)
Definition build_messages (history : list turn) : list turn :=
  system_context :: history.

(** [openai.ChatCompletion.create(model=..., messages=messages)] *)
Definition ChatCompletion_create (model : str) (messages : list turn)
    : M (list (option str)) :=
  emit (ChatCompletionCreate model messages) ;;
  match chat_completion E messages with
  | Response choices => ret choices
  | APIFailure => raise OpenAIError
  end.

(** [response.choices[0].message['content'].strip()] *)
Definition first_choice_content (choices : list (option str)) : M str :=
  match choices with
  | [] => raise IndexError
  | None :: _ => raise AttributeError
  | Some content :: _ => ret (strip U content)
  end.

Definition handle_text (update : Update) : M unit :=
  match message update with
  | None => raise AttributeError
  | Some m =>
      let user_message := text m in
      log INFO (ReceivedMessage user_message) ;;
      if contains (lit "menú") (lower U user_message) then
        show_categories (FakeQuery m)
      else if existsb (fun keyword => contains keyword (lower U user_message))
                most_ordered_keywords then
        show_most_ordered_product (FakeQuery m)
      else
        let chat := chat_id m in
        init_history chat ;;
        append_history chat {| t_role := user; t_content := user_message |} ;;
        history <- read_history chat ;;
        let messages := build_messages history in
        try_except
          (choices <- ChatCompletion_create (lit "gpt-3.5-turbo") messages ;;
           gpt_response <- first_choice_content choices ;;
           append_history chat {| t_role := assistant; t_content := gpt_response |} ;;
           reply_text m gpt_response None None)
          (fun e =>
             log ERROR (ErrorGenerating e) ;;
             reply_text m apology None None)
  end.

Definition canned (query : query_like) (response : str) (back_label back_data : str)
    : M unit :=
  edit_message_text query response (Some [button_row back_label back_data]).

Definition button (update : Update) : M unit :=
  match callback_query update with
  | None => raise AttributeError
  | Some q =>
      let query := RealQuery q in
      call Answer ;;
      log INFO (CallbackDataReceived (data q)) ;;
      if bool_decide (data q = lit "menu") then show_categories query
      else if startswith (data q) (lit "category_") then
        match split underscore (data q) !! 1%nat with
        | None => raise IndexError
        | Some segment =>
            match int U segment with
            | None => raise ValueError
            | Some category_id => show_products query category_id
            end
        end
      else if bool_decide (data q = lit "pedido") then
        canned query (pedido_response R) (lit "Regresar al Inicio ↩") (lit "return_start")
      else if bool_decide (data q = lit "otros") then
        edit_message_text query (other_questions_message R) (Some get_otros_keyboard)
      else if bool_decide (data q = lit "tiempo_pedido") then
        canned query (tiempo_pedido_response R)
          (lit "Regresar a las Preguntas ↩") (lit "return_otros")
      else if bool_decide (data q = lit "producto_mas_pedido") then
        show_most_ordered_product query
      else if bool_decide (data q = lit "orden_mal") then
        canned query (orden_mal_response R)
          (lit "Regresar a las Preguntas ↩") (lit "return_otros")
      else if bool_decide (data q = lit "app_no_abre") then
        canned query (app_no_abre_response R)
          (lit "Regresar a las Preguntas ↩") (lit "return_otros")
      else if bool_decide (data q = lit "info_proporcionada") then
        canned query (info_proporcionada_response R)
          (lit "Regresar a las Preguntas ↩") (lit "return_otros")
      else if bool_decide (data q = lit "return_start") then start update
      else if bool_decide (data q = lit "return_otros") then
        edit_message_text query (other_questions_message R) (Some get_otros_keyboard)
      else if bool_decide (data q = lit "return_categories") then
        log INFO ReturningToCategories ;;
        show_categories query
      else ret tt
  end.

End Program.

(** The three handlers registered in [main]. *)
Inductive handler := OnStart | OnButton | OnText.

Definition handle (U : unicode) (R : catalog) (E : env) (h : handler) (u : Update) : M unit :=
  match h with
  | OnStart => start R E u
  | OnButton => button U R E u
  | OnText => handle_text U R E u
  end.

(** A run of the bot: the updates are handled one after the other; an
    exception that leaves a handler ends that update only. *)
Fixpoint run (U : unicode) (R : catalog) (updates : list (env * handler * Update))
    (w : world) : world :=
  match updates with
  | [] => w
  | (E, h, u) :: rest => run U R rest (handle U R E h u w).2
  end.

(* ===================================================================== *)
(** ** Vocabulary of the statements                                         *)
(* ===================================================================== *)

(** [sub] occurs in [s] as a contiguous block. *)
Definition substring (sub s : str) : Prop := exists pre post, s = pre ++ sub ++ post.

(** What [int] takes for a decimal integer literal: decimal digits, at
    least one, with an optional sign in front, the whole optionally
    surrounded by white space. *)
Definition decimal_literal (U : unicode) (s : str) : Prop :=
  exists ws1 sg ds ws2,
    s = ws1 ++ sg ++ ds ++ ws2
    /\ Forall (fun c => int_space U c = true) ws1
    /\ (sg = [] \/ sg = [plus_sign] \/ sg = [minus_sign])
    /\ ds <> []
    /\ Forall (fun c => int_digit U c <> None) ds
    /\ Forall (fun c => int_space U c = true) ws2.

(** The Unicode tables keep white space, signs and digits apart. *)
Record unicode_wf (U : unicode) : Prop := {
  space_not_digit : forall c, int_space U c = true -> int_digit U c = None;
  minus_not_space : int_space U minus_sign = false;
  plus_not_space : int_space U plus_sign = false;
  minus_not_digit : int_digit U minus_sign = None;
  plus_not_digit : int_digit U plus_sign = None
}.

(** The tables give the ASCII digits their values. *)
Definition ascii_digits (U : unicode) : Prop :=
  forall k, (k < 10)%N -> int_digit U (48 + k) = Some k.

Definition is_completion (ev : event) : Prop :=
  match ev with
  | ChatCompletionCreate _ _ => True
  | _ => False
  end.

(** A computation is [quiet] when it leaves every conversation history as
    it was and never calls the completion API. *)
Definition quiet {A} (m : M A) : Prop :=
  forall w,
    chat_data (m w).2 = chat_data w
    /\ exists evs, trace (m w).2 = trace w ++ evs
                   /\ Forall (fun ev => ~ is_completion ev) evs.

Definition add_events (w : world) (evs : list event) : world :=
  {| chat_data := chat_data w; trace := trace w ++ evs |}.

(** The Telegram call that [query.edit_message_text] makes. *)
Definition render_event (query : query_like) (txt : str)
    (markup : option InlineKeyboardMarkup) : event :=
  match query with
  | RealQuery q => EditText (chat_id (cq_message q)) txt None markup
  | FakeQuery m => ReplyText (chat_id m) txt None markup
  end.



(** The callback tokens that [button] compares for equality. *)
Definition exact_tokens : list str :=
  [ lit "menu"; lit "pedido"; lit "otros"; lit "tiempo_pedido"; lit "producto_mas_pedido";
    lit "orden_mal"; lit "app_no_abre"; lit "info_proporcionada"; lit "return_start";
    lit "return_otros"; lit "return_categories" ].

(** The recognized tokens: the exact ones, and every token that begins with
    ["category_"]. *)
Definition recognized (token : str) : Prop :=
  token ∈ exact_tokens \/ startswith token (lit "category_") = true.

(** The two keyword tests of [handle_text], as properties of the text. *)
Definition asks_menu (U : unicode) (txt : str) : Prop :=
  substring (lit "menú") (lower U txt).

Definition asks_most_ordered (U : unicode) (txt : str) : Prop :=
  exists keyword, keyword ∈ most_ordered_keywords /\ substring keyword (lower U txt).

(** The Completion Client: the call and the extraction of the first
    choice's trimmed text, as one outcome. *)
Definition completion_text (U : unicode) (c : completion) : result str :=
  match c with
  | APIFailure => Raise OpenAIError
  | Response [] => Raise IndexError
  | Response (None :: _) => Raise AttributeError
  | Response (Some content :: _) => Ok (strip U content)
  end.

(** The history of a chat; a chat without an entry has the empty one. *)
Definition history_of (w : world) (chat : Z) : list turn :=
  default [] (chat_data w !! chat).

Definition set_history (w : world) (chat : Z) (h : list turn) : world :=
  {| chat_data := <[chat := h]> (chat_data w); trace := trace w |}.

Definition user_turn (txt : str) : turn := {| t_role := user; t_content := txt |}.
Definition assistant_turn (txt : str) : turn := {| t_role := assistant; t_content := txt |}.

(** The outcome of the [except] branch of [handle_text] entered in [w]
    with the exception [e]: the error is logged and the apology sent. *)
Definition send_apology (E : env) (m : Message) (e : exn) (w : world)
    : result unit * world :=
  let apology_call := ReplyText (chat_id m) apology None None in
  (if api_ok E (trace w ++ [ Log ERROR (ErrorGenerating e) ]) apology_call
   then Ok tt else Raise TelegramError,
   add_events w [ Log ERROR (ErrorGenerating e); apology_call ]).

(** How a keyword text is routed: the view that takes over, run on the
    [FakeQuery] of the message after the message has been logged. *)
Definition routed_to (view : query_like -> M unit) (U : unicode) (R : catalog) (E : env)
    (u : Update) (m : Message) (w : world) : Prop :=
  handle_text U R E u w
  = view (FakeQuery m) (add_events w [ Log INFO (ReceivedMessage (text m)) ]).

(** The handler made no completion call and left every history alone. *)
Definition no_completion_call (w w' : world) : Prop :=
  chat_data w' = chat_data w
  /\ exists evs, trace w' = trace w ++ evs /\ Forall (fun ev => ~ is_completion ev) evs.

Definition no_system (h : list turn) : Prop := Forall (fun t => t_role t <> system) h.

(** No stored history holds a system turn. *)
Definition store_ok (w : world) : Prop :=
  forall chat h, chat_data w !! chat = Some h -> no_system h.

(** A completion call carries the system turn once, in front. *)
Definition prompt_ok (R : catalog) (ev : event) : Prop :=
  match ev with
  | ChatCompletionCreate _ messages =>
      exists h, messages = system_context R :: h /\ no_system h
  | _ => True
  end.

Definition inv (R : catalog) (w : world) : Prop :=
  store_ok w /\ Forall (prompt_ok R) (trace w).

Definition empty_world : world := {| chat_data := ∅; trace := [] |}.

(** *** Vocabulary of the further properties *)

(** The keyboard that a Telegram call carries, if any. *)
Definition markup_of (ev : event) : option InlineKeyboardMarkup :=
  match ev with
  | ReplyText _ _ _ markup => markup
  | EditText _ _ _ markup => markup
  | _ => None
  end.

(** A token that [button] dispatches on, or the token of a product button. *)
Definition known_token (token : str) : Prop :=
  recognized token \/ exists s, token = lit "product_" ++ s.

Definition keyboard_ok (k : InlineKeyboardMarkup) : Prop :=
  Forall (Forall (fun b => known_token (callback_data b))) k.

Definition buttons_ok (ev : event) : Prop :=
  match markup_of ev with
  | Some k => keyboard_ok k
  | None => True
  end.

(** Every call that [m] adds to the trace satisfies [P]. *)
Definition emits (P : event -> Prop) {A} (m : M A) : Prop :=
  forall w, exists evs, trace (m w).2 = trace w ++ evs /\ Forall P evs.

(** The number of completion calls among some calls. *)
Fixpoint completion_calls (evs : list event) : nat :=
  match evs with
  | [] => 0
  | ChatCompletionCreate _ _ :: rest => S (completion_calls rest)
  | _ :: rest => completion_calls rest
  end.

(** Every assistant turn of a history comes right after a user turn. *)
Definition answers_follow_questions (h : list turn) : Prop :=
  forall pre t post,
    h = pre ++ t :: post -> t_role t = assistant ->
    exists pre' q, pre = pre' ++ [q] /\ t_role q = user.

(** Two outside worlds in which the Telegram calls have the same outcomes. *)
Definition same_telegram (E E' : env) : Prop :=
  forall tr ev, api_ok E tr ev = api_ok E' tr ev.

(** The number of text updates of a run. *)
Fixpoint text_updates (updates : list (env * handler * Update)) : nat :=
  match updates with
  | [] => 0
  | (_, OnText, _) :: rest => S (text_updates rest)
  | _ :: rest => text_updates rest
  end.

(* ===================================================================== *)
(** ** A concrete restaurant                                               *)
(* ===================================================================== *)

Module Fixture.

Definition R0 : catalog := {|
  greeting_message := fun name chat => lit "Hola " ++ name ++ lit ", tu chat es " ++ chat;
  menu_message := lit "¿En qué puedo ayudarte?";
  pedido_response := lit "Escanea el código de tu mesa.";
  other_questions_message := lit "Preguntas frecuentes:";
  tiempo_pedido_response := lit "Unos 20 minutos.";
  orden_mal_response := lit "Avisa a un mesero.";
  app_no_abre_response := lit "Reinicia la aplicación.";
  info_proporcionada_response := lit "La información es referencial.";
  rules := [ lit "Eres un mesero."; lit "Responde en español." ]
|}.

Definition price (cents : N) : option Decimal := Some (Finite false cents (-2)).

(** The integers of a signed 64-bit column. *)
Definition int64 (z : Z) : bool := ((- 2 ^ 63 <=? z) && (z <? 2 ^ 63))%Z.

(** An engine that emits tied groups by ascending, or by descending,
    product identifier. *)
Definition by_id (p : Product) : nat := Z.to_nat (p_id p).
Definition by_id_desc (p : Product) : nat := 100 - Z.to_nat (p_id p).

Definition P1 : Product :=
  {| p_id := 1; p_name := lit "Café"; p_price := price 250; p_image := lit "cafe.jpg";
     p_categoryId := Some 1%Z |}.

Definition P2 : Product :=
  {| p_id := 2; p_name := lit "Té"; p_price := price 1999; p_image := lit "te.jpg";
     p_categoryId := Some 1%Z |}.

Definition line (id product : Z) : OrderProducts :=
  {| op_id := id; op_orderId := Some 1%Z; op_productId := Some product;
     op_quantity := Some 1%Z |}.

Definition bebidas : Category := {| c_id := 1; c_name := lit "Bebidas"; c_slug := lit "bebidas" |}.

(** P2 comes first in the table and has one order-line; P1 has three. *)
Definition db_orders : database := {|
  Category_rows := [ bebidas ];
  Product_rows := [ P2; P1 ];
  orders_rows := [ {| o_id := 1 |} ];
  OrderProducts_rows := [ line 1 1; line 2 2; line 3 1; line 4 1 ];
  tie_rank := by_id;
  fits := int64;
  rows_fit := ltac:(repeat constructor)
|}.

Definition db_no_orders : database := {|
  Category_rows := [ bebidas ];
  Product_rows := [ P2; P1 ];
  orders_rows := [];
  OrderProducts_rows := [];
  tie_rank := by_id;
  fits := int64;
  rows_fit := ltac:(repeat constructor)
|}.

Definition env_with (d : database) (c : completion) : env := {|
  current_hour := 10;
  db := Some d;
  chat_completion := fun _ => c;
  api_ok := fun _ _ => true
|}.

Definition E_down : env := env_with db_orders APIFailure.
Definition E_up : env := env_with db_orders (Response [ Some (lit " ¡Hola! ") ]).
Definition E_no_orders : env := env_with db_no_orders APIFailure.

Definition ana : User := {| first_name := lit "Ana" |}.

Definition msg (txt : string) : Message :=
  {| from_user := ana; chat_id := 7; text := lit txt |}.

Definition text_update (txt : string) : Update :=
  {| message := Some (msg txt); callback_query := None |}.

Definition query (token : string) : CallbackQuery :=
  {| cq_from_user := ana; cq_message := msg "Selecciona un producto:"; data := lit token |}.

Definition button_update (token : string) : Update :=
  {| message := None; callback_query := Some (query token) |}.

Definition empty_update : Update := {| message := None; callback_query := None |}.

(** The database does not answer. *)
Definition E_db_down : env := {|
  current_hour := 10;
  db := None;
  chat_completion := fun _ => APIFailure;
  api_ok := fun _ _ => true
|}.

(** Telegram refuses the reply "¡Hola!" and accepts every other call. *)
Definition E_reply_lost : env := {|
  current_hour := 10;
  db := Some db_orders;
  chat_completion := fun _ => Response [ Some (lit " ¡Hola! ") ];
  api_ok := fun _ ev =>
              match ev with
              | ReplyText _ txt _ _ => negb (bool_decide (txt = lit "¡Hola!"))
              | _ => true
              end
|}.

(** Late at night, without database and without completion API. *)
Definition E_night : env := {|
  current_hour := 23;
  db := None;
  chat_completion := fun _ => APIFailure;
  api_ok := fun _ _ => true
|}.

Definition units (id order product quantity : Z) : OrderProducts :=
  {| op_id := id; op_orderId := Some order; op_productId := Some product;
     op_quantity := Some quantity |}.

(** A hundred units of P2 in one line; two lines of one unit of P1. *)
Definition db_units : database := {|
  Category_rows := [ bebidas ];
  Product_rows := [ P2; P1 ];
  orders_rows := [ {| o_id := 1 |}; {| o_id := 2 |} ];
  OrderProducts_rows := [ units 1 1 2 100; units 2 1 1 1; units 3 2 1 1 ];
  tie_rank := by_id;
  fits := int64;
  rows_fit := ltac:(repeat constructor)
|}.

(** The same lines with other identifiers, orders and quantities, on an
    engine that ranks ties the other way. *)
Definition db_units_relabelled : database := {|
  Category_rows := [];
  Product_rows := [ P2; P1 ];
  orders_rows := [];
  OrderProducts_rows := [ units 7 5 2 1; units 8 5 1 40; units 9 5 1 60 ];
  tie_rank := by_id_desc;
  fits := int64;
  rows_fit := ltac:(repeat constructor)
|}.

(** A product without a price, ordered once. *)
Definition P3 : Product :=
  {| p_id := 3; p_name := lit "Agua"; p_price := None; p_image := lit "agua.jpg";
     p_categoryId := Some 2%Z |}.

Definition db_unpriced : database := {|
  Category_rows := [ bebidas ];
  Product_rows := [ P3 ];
  orders_rows := [ {| o_id := 1 |} ];
  OrderProducts_rows := [ units 1 1 3 1 ];
  tie_rank := by_id;
  fits := int64;
  rows_fit := ltac:(repeat constructor)
|}.

Definition E_unpriced : env := env_with db_unpriced APIFailure.




(** P1 and P2 with one order-line each, on two engines. *)
Definition db_tie (rank : Product -> nat) : database := {|
  Category_rows := [ bebidas ];
  Product_rows := [ P2; P1 ];
  orders_rows := [ {| o_id := 1 |} ];
  OrderProducts_rows := [ line 1 1; line 2 2 ];
  tie_rank := rank;
  fits := int64;
  rows_fit := ltac:(repeat constructor)
|}.

(** Three updates in a row: a chat message that is answered, one for which
    the completion API is down, and a press on the menu button. *)
Definition three_updates : list (env * handler * Update) :=
  [ (E_up, OnText, text_update "hola");
    (E_down, OnText, text_update "¿tienen postres?");
    (E_up, OnButton, button_update "menu") ].

End Fixture.

(* ===================================================================== *)
(** ** Facts about the string builtins                                     *)
(* ===================================================================== *)

Example lit_menu : lit "menú" = [109; 101; 110; 250]%N.
Proof. reflexivity. Qed.

Example lower_MENU : lower latin1 (lit "El MENÚ") = lit "el menú".
Proof. reflexivity. Qed.

Example split_category : split underscore (lit "category_12_x") = [lit "category"; lit "12"; lit "x"].
Proof. reflexivity. Qed.

Example int_examples :
  int latin1 (lit " -12 ") = Some (-12)%Z /\ int latin1 (lit "1_000") = Some 1000%Z
  /\ int latin1 (lit "1__0") = None /\ int latin1 (lit "") = None
  /\ int latin1 (lit "12a") = None /\ int latin1 (lit "+7") = Some 7%Z
  /\ int latin1 (lit "7_") = None /\ int latin1 (lit "_7") = None.
Proof. repeat split; reflexivity. Qed.

Example str_of_Z_examples : str_of_Z (-305) = lit "-305" /\ str_of_Z 0 = lit "0".
Proof. split; reflexivity. Qed.

Lemma startswith_spec (s p : str) :
  startswith s p = true <-> exists rest, s = p ++ rest.
Proof.
  revert s; induction p as [|c p IH]; intros s; simpl.
  - split; [exists s; reflexivity | destruct s; reflexivity].
  - destruct s as [|x s]; simpl.
    + split; [discriminate | intros [r Hr]; discriminate].
    + rewrite andb_true_iff, N.eqb_eq, IH. split.
      * intros [-> [r ->]]. exists r; reflexivity.
      * intros [r Hr]. injection Hr as -> ->. split; [reflexivity | exists r; reflexivity].
Qed.

Lemma contains_spec (sub s : str) : contains sub s = true <-> substring sub s.
Proof.
  unfold substring. induction s as [|x s IH]; cbn [contains].
  - rewrite startswith_spec. split.
    + intros [r Hr]. symmetry in Hr. apply app_eq_nil in Hr as [-> ->].
      exists [], []; reflexivity.
    + intros (pre & post & H). symmetry in H.
      apply app_eq_nil in H as [-> H]. apply app_eq_nil in H as [-> ->].
      exists []; reflexivity.
  - rewrite orb_true_iff, IH, startswith_spec. split.
    + intros [[r Hr] | (pre & post & ->)].
      * exists [], r; exact Hr.
      * exists (x :: pre), post; reflexivity.
    + intros (pre & post & H). destruct pre as [|y pre]; simpl in H.
      * left; exists post; exact H.
      * injection H as -> ->. right; exists pre, post; reflexivity.
Qed.

Lemma contains_false (sub s : str) : contains sub s = false <-> ~ substring sub s.
Proof. rewrite <- contains_spec. destruct (contains sub s); split; congruence. Qed.

(** [split] cuts at the first separator: the first segment is free of it,
    and the other segments are the split of what follows. *)
Lemma split_first (sep : N) (s : str) :
  exists seg segs, split sep s = seg :: segs /\ (sep ∉ seg) /\
    ((segs = [] /\ s = seg) \/ (exists rest, s = seg ++ sep :: rest /\ segs = split sep rest)).
Proof.
  induction s as [|c s (seg & segs & Hs & Hseg & Hrest)]; simpl.
  - exists [], []. split; [reflexivity|]. split; [apply not_elem_of_nil | left; auto].
  - destruct (N.eqb_spec c sep) as [->|Hne].
    + exists [], (split sep s). split; [reflexivity|].
      split; [apply not_elem_of_nil | right; exists s; auto].
    + rewrite Hs. exists (c :: seg), segs. split; [reflexivity|]. split.
      * rewrite not_elem_of_cons. split; [congruence | exact Hseg].
      * destruct Hrest as [[-> ->] | (rest & -> & ->)]; [left; auto|].
        right; exists rest; auto.
Qed.

Lemma split_app_sep (sep : N) (a b : str) :
  sep ∉ a -> split sep (a ++ sep :: b) = a :: split sep b.
Proof.
  induction a as [|c a IH]; simpl; intros Ha.
  - rewrite N.eqb_refl; reflexivity.
  - apply not_elem_of_cons in Ha as [Hc Ha].
    destruct (N.eqb_spec c sep) as [->|_]; [congruence|].
    rewrite (IH Ha); reflexivity.
Qed.

Lemma dropwhile_split (f : N -> bool) (s : str) :
  exists ws, s = ws ++ dropwhile f s /\ Forall (fun c => f c = true) ws.
Proof.
  induction s as [|c s (ws & Hs & Hws)]; simpl.
  - exists []; auto.
  - destruct (f c) eqn:Hc.
    + exists (c :: ws). split; [simpl; congruence | constructor; assumption].
    + exists []; auto.
Qed.

Lemma dropwhile_all (f : N -> bool) (ws rest : str) :
  Forall (fun c => f c = true) ws -> dropwhile f (ws ++ rest) = dropwhile f rest.
Proof. induction 1 as [|c ws Hc _ IH]; simpl; [reflexivity | rewrite Hc; exact IH]. Qed.

Lemma dropwhile_nil (f : N -> bool) (s : str) :
  dropwhile f s = [] <-> Forall (fun c => f c = true) s.
Proof.
  induction s as [|c s IH]; simpl.
  - split; auto.
  - destruct (f c) eqn:Hc.
    + rewrite IH. split; [intros H; constructor; assumption | intros H; inversion H; assumption].
    + split; [discriminate | intros H; inversion H; congruence].
Qed.

Lemma dropwhile_stop (f : N -> bool) (c : N) (s : str) :
  f c = false -> dropwhile f (c :: s) = c :: s.
Proof. simpl; intros ->; reflexivity. Qed.

(** [str(n)] consists of decimal digits only. *)
Lemma uint_codes_digits (d : Decimal.uint) :
  Forall (fun c => is_ascii_digit c = true) (uint_codes d).
Proof. induction d; simpl; constructor; auto. Qed.

Lemma str_of_N_digits (n : N) : Forall (fun c => is_ascii_digit c = true) (str_of_N n).
Proof. apply uint_codes_digits. Qed.

Lemma str_of_N_nonempty (n : N) : str_of_N n <> [].
Proof.
  unfold str_of_N. destruct n as [|p]; simpl; [discriminate|].
  pose proof (DecimalPos.Unsigned.to_uint_nonnil p) as H.
  destruct (Pos.to_uint p); simpl; congruence.
Qed.

(** *** [int] on a text without underscores *)

Lemma latin1_wf : unicode_wf latin1.
Proof.
  split; try reflexivity.
  intros c; simpl. unfold ascii_space, is_ascii_digit.
  destruct (N.leb_spec 48 c), (N.leb_spec c 57); simpl; try reflexivity.
  destruct (N.leb_spec 9 c), (N.leb_spec c 13), (N.eqb_spec c 32),
    (N.eqb_spec c 133), (N.eqb_spec c 160); simpl; try discriminate; lia.
Qed.

Section IntFacts.
Variable U : unicode.
Hypothesis WF : unicode_wf U.

Let space (c : N) : Prop := int_space U c = true.
Let isdigit (c : N) : Prop := int_digit U c <> None.

Lemma int_digits_inv (s : str) : forall acc n rest,
  underscore ∉ s -> int_digits U acc s = Some (n, rest) ->
  exists ds, s = ds ++ rest /\ Forall isdigit ds
             /\ match rest with [] => True | c :: _ => int_digit U c = None end.
Proof.
  induction s as [|c s IH]; intros acc n rest Hu H; simpl in H.
  - injection H as <- <-. exists []; auto.
  - apply not_elem_of_cons in Hu as [Hc Hu].
    destruct (int_digit U c) as [d|] eqn:Hd.
    + destruct (IH _ _ _ Hu H) as (ds & -> & Hds & Hr).
      exists (c :: ds). split; [reflexivity|]. split; [|exact Hr].
      constructor; [unfold isdigit; congruence | exact Hds].
    + destruct (N.eqb_spec c underscore) as [->|_]; [congruence|].
      injection H as <- <-. exists []; auto.
Qed.

Lemma int_digits_run (ds : str) : forall acc rest,
  Forall isdigit ds ->
  match rest with
  | [] => True
  | c :: _ => int_digit U c = None /\ c <> underscore
  end ->
  exists n, int_digits U acc (ds ++ rest) = Some (n, rest).
Proof.
  induction ds as [|c ds IH]; intros acc rest Hds Hr; simpl.
  - destruct rest as [|c rest]; simpl; [eauto|]. destruct Hr as [Hr Hc]. rewrite Hr.
    destruct (N.eqb_spec c underscore); [congruence | eauto].
  - inversion Hds as [|? ? Hc Hds']; subst.
    destruct (int_digit U c) as [d|] eqn:Hd; [|exfalso; congruence].
    apply IH; assumption.
Qed.

Lemma int_literal (s : str) :
  underscore ∉ s -> decimal_literal U s -> exists n, int U s = Some n.
Proof.
  intros Hu (ws1 & sg & ds & ws2 & -> & Hws1 & Hsg & Hne & Hds & Hws2).
  destruct ds as [|c ds]; [congruence|]. clear Hne.
  inversion Hds as [|? ? Hc Hds']; subst.
  destruct (int_digit U c) as [d|] eqn:Hd; [|exfalso; congruence].
  assert (Hcs : int_space U c = false).
  { destruct (int_space U c) eqn:Hs; [|reflexivity].
    rewrite (space_not_digit U WF c Hs) in Hd; discriminate. }
  assert (Hrun : exists n, int_digits U d (ds ++ ws2) = Some (n, ws2)).
  { apply int_digits_run; [exact Hds'|].
    destruct ws2 as [|x ws2]; [exact I|]. inversion Hws2; subst. split.
    - apply (space_not_digit U WF); assumption.
    - intros ->. apply Hu. rewrite !elem_of_app, !elem_of_cons. tauto. }
  destruct Hrun as [n Hrun].
  assert (Hend : dropwhile (int_space U) ws2 = []) by (apply dropwhile_nil; exact Hws2).
  unfold int. rewrite (dropwhile_all _ _ _ Hws1).
  destruct Hsg as [-> | [-> | ->]]; simpl.
  - rewrite Hcs.
    destruct (N.eqb_spec c minus_sign) as [->|_];
      [rewrite (minus_not_digit U WF) in Hd; discriminate|].
    destruct (N.eqb_spec c plus_sign) as [->|_];
      [rewrite (plus_not_digit U WF) in Hd; discriminate|].
    simpl. rewrite Hd, Hrun, Hend. eauto.
  - change 43%N with plus_sign. rewrite (plus_not_space U WF).
    simpl. rewrite Hd, Hrun, Hend. eauto.
  - change 45%N with minus_sign. rewrite (minus_not_space U WF).
    simpl. rewrite Hd, Hrun, Hend. eauto.
Qed.

Lemma int_magnitude_inv (s : str) (n : N) (rest : str) :
  underscore ∉ s -> int_magnitude U s = Some (n, rest) ->
  exists ds, s = ds ++ rest /\ ds <> [] /\ Forall isdigit ds.
Proof.
  intros Hu H. destruct s as [|c s]; simpl in H; [discriminate|].
  apply not_elem_of_cons in Hu as [_ Hu].
  destruct (int_digit U c) as [d|] eqn:Hd; [|discriminate].
  destruct (int_digits_inv _ _ _ _ Hu H) as (ds & -> & Hds & _).
  exists (c :: ds). split; [reflexivity|]. split; [discriminate|].
  constructor; [unfold isdigit; congruence | exact Hds].
Qed.

Lemma literal_int (s : str) (z : Z) :
  underscore ∉ s -> int U s = Some z -> decimal_literal U s.
Proof.
  intros Hu H. unfold int in H.
  destruct (dropwhile_split (int_space U) s) as (ws1 & Hs & Hws1).
  set (s1 := dropwhile (int_space U) s) in *.
  assert (Hu1 : underscore ∉ s1).
  { intros Hin. apply Hu. rewrite Hs. apply elem_of_app; right; exact Hin. }
  assert (Hgen : forall sg s2 neg,
    s1 = sg ++ s2 -> (sg = [] \/ sg = [plus_sign] \/ sg = [minus_sign]) ->
    match int_magnitude U s2 with
    | Some (n, rest) =>
        match dropwhile (int_space U) rest with
        | [] => Some (if neg : bool then (- Z.of_N n)%Z else Z.of_N n)
        | _ :: _ => None
        end
    | None => None
    end = Some z -> decimal_literal U s).
  { intros sg s2 neg Hs1 Hsg Hm.
    destruct (int_magnitude U s2) as [[n rest]|] eqn:Hmag; [|discriminate].
    destruct (dropwhile (int_space U) rest) eqn:Hend; [|discriminate].
    assert (Hu2 : underscore ∉ s2).
    { intros Hin. apply Hu1. rewrite Hs1. apply elem_of_app; right; exact Hin. }
    destruct (int_magnitude_inv _ _ _ Hu2 Hmag) as (ds & -> & Hne & Hds).
    exists ws1, sg, ds, rest. rewrite Hs, Hs1.
    repeat split; try assumption. apply dropwhile_nil; exact Hend. }
  destruct s1 as [|c r] eqn:Hs1.
  - apply (Hgen [] [] false); [reflexivity | auto | exact H].
  - destruct (N.eqb_spec c minus_sign) as [->|_].
    + apply (Hgen [minus_sign] r true); [reflexivity | auto | exact H].
    + destruct (N.eqb_spec c plus_sign) as [->|_].
      * apply (Hgen [plus_sign] r false); [reflexivity | auto | exact H].
      * apply (Hgen [] (c :: r) false); [reflexivity | auto | exact H].
Qed.

(** On a segment cut out by [split "_"], [int] succeeds exactly on the
    decimal integer literals. *)
Lemma int_iff_literal (s : str) :
  underscore ∉ s -> ((exists z, int U s = Some z) <-> decimal_literal U s).
Proof.
  intros Hu. split.
  - intros [z Hz]. exact (literal_int s z Hu Hz).
  - apply int_literal; exact Hu.
Qed.
End IntFacts.

(** *** [int] after [str] *)

Lemma latin1_ascii_digits : ascii_digits latin1.
Proof.
  intros k Hk. simpl. unfold is_ascii_digit.
  destruct (N.leb_spec 48 (48 + k)), (N.leb_spec (48 + k) 57); simpl; try lia.
  f_equal. lia.
Qed.

Lemma split_no_sep (sep : N) (s : str) : sep ∉ s -> split sep s = [s].
Proof.
  induction s as [|c s IH]; simpl; intros H; [reflexivity|].
  apply not_elem_of_cons in H as [Hc Hs].
  destruct (N.eqb_spec c sep); [congruence|]. rewrite (IH Hs). reflexivity.
Qed.

Lemma str_of_Z_no_underscore (z : Z) : underscore ∉ str_of_Z z.
Proof.
  assert (Hn : forall n, underscore ∉ str_of_N n).
  { intros n Hin. pose proof (str_of_N_digits n) as Hd.
    rewrite Forall_forall in Hd. specialize (Hd _ Hin). discriminate Hd. }
  destruct z; simpl; [apply Hn | apply Hn |].
  apply not_elem_of_cons. split; [discriminate | apply Hn].
Qed.

Section RoundTrip.
Variable U : unicode.
Hypothesis WF : unicode_wf U.
Hypothesis AD : ascii_digits U.

Lemma int_digits_codes_pos (d : Decimal.uint) : forall p,
  int_digits U (Npos p) (uint_codes d) = Some (Npos (Pos.of_uint_acc d p), []).
Proof.
  induction d; intros p; simpl; try reflexivity.
  all: match goal with
       | |- context [int_digit U ?c] =>
           let k := eval vm_compute in (c - 48)%N in
           rewrite (AD k eq_refl : int_digit U c = Some k)
       end.
  all: rewrite <- IHd; f_equal; lia.
Qed.

Lemma int_digits_codes_zero (d : Decimal.uint) :
  int_digits U 0 (uint_codes d) = Some (N.of_uint d, []).
Proof.
  induction d; simpl; try reflexivity.
  all: match goal with
       | |- context [int_digit U ?c] =>
           let k := eval vm_compute in (c - 48)%N in
           rewrite (AD k eq_refl : int_digit U c = Some k)
       end.
  all: first [ exact IHd | apply int_digits_codes_pos ].
Qed.

Lemma int_magnitude_codes (d : Decimal.uint) :
  d <> Decimal.Nil -> int_magnitude U (uint_codes d) = Some (N.of_uint d, []).
Proof.
  destruct d; intros Hd; [congruence | ..]; simpl.
  all: match goal with
       | |- context [int_digit U ?c] =>
           let k := eval vm_compute in (c - 48)%N in
           rewrite (AD k eq_refl : int_digit U c = Some k)
       end.
  all: first [ apply int_digits_codes_zero | apply int_digits_codes_pos ].
Qed.

Lemma int_magnitude_str_of_N (n : N) : int_magnitude U (str_of_N n) = Some (n, []).
Proof.
  unfold str_of_N. rewrite int_magnitude_codes.
  - rewrite DecimalN.Unsigned.of_to. reflexivity.
  - destruct n as [|p]; simpl; [discriminate | apply DecimalPos.Unsigned.to_uint_nonnil].
Qed.

Lemma ascii_digit_int_digit (c : N) : is_ascii_digit c = true -> int_digit U c <> None.
Proof.
  unfold is_ascii_digit. rewrite andb_true_iff, !N.leb_le. intros [H1 H2].
  replace c with (48 + (c - 48))%N by lia. rewrite AD by lia. discriminate.
Qed.

(** [int(str(z))] is [z]. *)
Lemma int_str_of_Z (z : Z) : int U (str_of_Z z) = Some z.
Proof.
  assert (Hnat : forall n, int U (str_of_N n) = Some (Z.of_N n)).
  { intros n. unfold int.
    destruct (str_of_N n) as [|c r] eqn:Hs; [destruct (str_of_N_nonempty n Hs)|].
    assert (Hc : int_digit U c <> None).
    { apply ascii_digit_int_digit. pose proof (str_of_N_digits n) as Hd.
      rewrite Hs in Hd. inversion Hd; assumption. }
    rewrite dropwhile_stop.
    2:{ destruct (int_space U c) eqn:Hsp; [|reflexivity].
        destruct (Hc (space_not_digit U WF c Hsp)). }
    destruct (N.eqb_spec c minus_sign) as [->|_];
      [destruct (Hc (minus_not_digit U WF))|].
    destruct (N.eqb_spec c plus_sign) as [->|_];
      [destruct (Hc (plus_not_digit U WF))|].
    rewrite <- Hs, int_magnitude_str_of_N. reflexivity. }
  destruct z as [|p|p]; simpl str_of_Z.
  - apply (Hnat 0%N).
  - apply (Hnat (Npos p)).
  - unfold int. rewrite dropwhile_stop by apply (minus_not_space U WF).
    rewrite N.eqb_refl, int_magnitude_str_of_N. reflexivity.
Qed.
End RoundTrip.

(* ===================================================================== *)
(** ** Frame: what the canned flows leave alone                            *)
(* ===================================================================== *)

Lemma quiet_ret {A} (a : A) : quiet (ret a).
Proof. intros w; simpl. split; [reflexivity|]. exists []. rewrite app_nil_r; auto. Qed.

Lemma quiet_raise {A} (e : exn) : quiet (@raise A e).
Proof. intros w; simpl. split; [reflexivity|]. exists []. rewrite app_nil_r; auto. Qed.

Lemma quiet_emit (ev : event) : ~ is_completion ev -> quiet (emit ev).
Proof. intros H w; simpl. split; [reflexivity|]. exists [ev]; auto. Qed.

Lemma quiet_bind {A B} (m : M A) (k : A -> M B) :
  quiet m -> (forall a, quiet (k a)) -> quiet (bind m k).
Proof.
  intros Hm Hk w. unfold bind.
  destruct (Hm w) as (Hc & evs & Ht & Hevs).
  destruct (m w) as [[a|e] w1]; simpl in *.
  - destruct (Hk a w1) as (Hc' & evs' & Ht' & Hevs').
    split; [congruence|]. exists (evs ++ evs').
    rewrite Ht', Ht, app_assoc. split; [reflexivity | apply Forall_app; auto].
  - split; [exact Hc|]. exists evs; auto.
Qed.

Lemma quiet_if {A} (c : bool) (a b : M A) : quiet a -> quiet b -> quiet (if c then a else b).
Proof. destruct c; auto. Qed.

Create HintDb quiet.
#[local] Hint Resolve quiet_ret quiet_raise quiet_bind quiet_if : quiet.

Ltac quiet_step :=
  first
    [ apply quiet_ret | apply quiet_raise
    | apply quiet_bind; [| intros ?]
    | apply quiet_if
    | apply quiet_emit; simpl; tauto
    | match goal with
      | |- quiet (match ?x with _ => _ end) => destruct x
      end ].

Section Frame.
Variable U : unicode.
Variable R : catalog.
Variable E : env.

Lemma quiet_log (l : level) (m : log_msg) : quiet (log l m).
Proof. apply quiet_emit; simpl; tauto. Qed.

Lemma quiet_call (ev : event) : ~ is_completion ev -> quiet (call E ev).
Proof.
  intros H w. unfold call.
  apply (quiet_bind (emit ev)
           (fun _ => if api_ok E (trace w) ev then ret tt else raise TelegramError)).
  - apply quiet_emit; exact H.
  - intros _. apply quiet_if; [apply quiet_ret | apply quiet_raise].
Qed.

Lemma quiet_execute (q : sql) : quiet (execute E q).
Proof. unfold execute. repeat quiet_step. Qed.

Lemma quiet_reply_text m txt pm mk : quiet (reply_text E m txt pm mk).
Proof. apply quiet_call; simpl; tauto. Qed.

Lemma quiet_edit_text m txt pm mk : quiet (edit_text E m txt pm mk).
Proof. apply quiet_call; simpl; tauto. Qed.

Lemma quiet_edit_message_text query txt mk : quiet (edit_message_text E query txt mk).
Proof. destruct query; [apply quiet_edit_text | apply quiet_reply_text]. Qed.

Lemma quiet_format_price price : quiet (format_price price).
Proof. destruct price; [apply quiet_ret | apply quiet_raise]. Qed.

Lemma quiet_product_buttons ps : quiet (product_buttons ps).
Proof.
  induction ps as [|p ps IH]; simpl; [apply quiet_ret|].
  apply quiet_bind.
  - unfold product_button. apply quiet_bind; [apply quiet_format_price|].
    intros ?; apply quiet_ret.
  - intros ?. apply quiet_bind; [exact IH | intros ?; apply quiet_ret].
Qed.

Hint Resolve quiet_log quiet_execute quiet_edit_message_text quiet_format_price
  quiet_product_buttons quiet_reply_text quiet_edit_text : quiet.

Ltac quiet_go := repeat first [ solve [auto with quiet] | quiet_step ].

Lemma quiet_show_categories query : quiet (show_categories E query).
Proof. unfold show_categories. quiet_go. Qed.

Lemma quiet_show_products query category_id : quiet (show_products E query category_id).
Proof. unfold show_products. quiet_go. Qed.

Lemma quiet_show_most_ordered_product query : quiet (show_most_ordered_product E query).
Proof. unfold show_most_ordered_product. quiet_go. Qed.

Lemma quiet_start_send u txt pm mk : quiet (start_send E u txt pm mk).
Proof. unfold start_send. quiet_go. Qed.

Lemma quiet_start u : quiet (start R E u).
Proof.
  unfold start. apply quiet_bind; [apply quiet_log | intros _].
  destruct (start_origin u) as [[name chat]|]; [|apply quiet_log].
  apply quiet_bind; [apply quiet_log | intros _].
  apply quiet_bind; [apply quiet_start_send | intros _; apply quiet_start_send].
Qed.

Hint Resolve quiet_show_categories quiet_show_products quiet_show_most_ordered_product
  quiet_start : quiet.

Lemma quiet_button u : quiet (button U R E u).
Proof.
  unfold button, canned. destruct (callback_query u) as [q|]; [|apply quiet_raise].
  apply quiet_bind; [apply quiet_call; simpl; tauto | intros _].
  apply quiet_bind; [apply quiet_log | intros _].
  repeat (apply quiet_if; [solve [quiet_go] |]).
  apply quiet_ret.
Qed.
End Frame.

(* ===================================================================== *)
(** ** Running a computation: equations for the monad                      *)
(* ===================================================================== *)

Lemma add_events_app w evs evs' :
  add_events (add_events w evs) evs' = add_events w (evs ++ evs').
Proof. unfold add_events; simpl. rewrite app_assoc; reflexivity. Qed.

Lemma bind_emit {A} (ev : event) (k : unit -> M A) (w : world) :
  bind (emit ev) k w = k tt (add_events w [ev]).
Proof. reflexivity. Qed.

Lemma bind_log {A} l m (k : unit -> M A) (w : world) :
  bind (log l m) k w = k tt (add_events w [Log l m]).
Proof. reflexivity. Qed.

Lemma bind_ret {A B} (a : A) (k : A -> M B) (w : world) : bind (ret a) k w = k a w.
Proof. reflexivity. Qed.

Lemma bind_raise {A B} (e : exn) (k : A -> M B) (w : world) :
  bind (raise e) k w = (Raise e, w).
Proof. reflexivity. Qed.

Lemma bind_bind {A B C} (m : M A) (k1 : A -> M B) (k2 : B -> M C) (w : world) :
  bind (bind m k1) k2 w = bind m (fun a => bind (k1 a) k2) w.
Proof. unfold bind. destruct (m w) as [[a|e] w1]; reflexivity. Qed.

Lemma bind_execute {A} (E : env) (q : sql) (d : database) (k : database -> M A) w :
  db E = Some d -> binds d q = true ->
  bind (execute E q) k w = k d (add_events w [Execute q]).
Proof. intros H Hb. unfold execute, bind, emit; simpl. rewrite H, Hb; reflexivity. Qed.

Lemma bind_execute_unbound {A} (E : env) (q : sql) (d : database) (k : database -> M A) w :
  db E = Some d -> binds d q = false ->
  bind (execute E q) k w = (Raise OverflowError, add_events w [Execute q]).
Proof. intros H Hb. unfold execute, bind, emit; simpl. rewrite H, Hb; reflexivity. Qed.

Lemma call_run (E : env) (ev : event) (w : world) :
  call E ev w
  = (if api_ok E (trace w) ev then Ok tt else Raise TelegramError, add_events w [ev]).
Proof. unfold call, bind, emit; simpl. destruct (api_ok E (trace w) ev); reflexivity. Qed.

Lemma edit_message_text_run (E : env) query txt markup (w : world) :
  edit_message_text E query txt markup w
  = (if api_ok E (trace w) (render_event query txt markup) then Ok tt
     else Raise TelegramError,
     add_events w [render_event query txt markup]).
Proof. destruct query; apply call_run. Qed.

(* ===================================================================== *)
(** ** The greeting                                                        *)
(* ===================================================================== *)

(** C4: an hour in [5,12) gives the morning greeting, an hour in [12,18)
    the afternoon greeting, every other hour the night greeting; the three
    greetings differ, so the boundary hours 5, 12, 18 and 0 get one each. *)
Theorem C4_get_greeting_by_hour (h : Z) :
  ((5 <= h < 12)%Z -> get_greeting h = lit "Buenos días")
  /\ ((12 <= h < 18)%Z -> get_greeting h = lit "Buenas tardes")
  /\ (~ (5 <= h < 18)%Z -> get_greeting h = lit "Buenas noches")
  /\ (get_greeting 5 = lit "Buenos días" /\ get_greeting 12 = lit "Buenas tardes"
      /\ get_greeting 18 = lit "Buenas noches" /\ get_greeting 0 = lit "Buenas noches")
  /\ (lit "Buenos días" <> lit "Buenas tardes" /\ lit "Buenas tardes" <> lit "Buenas noches"
      /\ lit "Buenos días" <> lit "Buenas noches").
Proof.
  unfold get_greeting.
  repeat split; try reflexivity; try discriminate; intros H.
  - destruct (Z.leb_spec 5 h), (Z.ltb_spec h 12); simpl; try reflexivity; lia.
  - destruct (Z.leb_spec 5 h), (Z.ltb_spec h 12), (Z.leb_spec 12 h), (Z.ltb_spec h 18);
      simpl; try reflexivity; lia.
  - destruct (Z.leb_spec 5 h), (Z.ltb_spec h 12), (Z.leb_spec 12 h), (Z.ltb_spec h 18);
      simpl; try reflexivity; lia.
Qed.

Lemma C4_get_greeting_by_hour_witness :
  get_greeting 11 = lit "Buenos días" /\ get_greeting 17 = lit "Buenas tardes"
  /\ get_greeting 23 = lit "Buenas noches".
Proof.
  split; [| split].
  - apply (proj1 (C4_get_greeting_by_hour 11)). lia.
  - apply (proj1 (proj2 (C4_get_greeting_by_hour 17))). lia.
  - apply (proj1 (proj2 (proj2 (C4_get_greeting_by_hour 23)))). lia.
Defined.

(* ===================================================================== *)
(** ** The persistence queries                                             *)
(* ===================================================================== *)

Lemma select_Product_by_category_spec (d : database) (category_id : Z) (p : Product) :
  p ∈ select_Product_by_category d category_id
  <-> p ∈ Product_rows d /\ p_categoryId p = Some category_id.
Proof. unfold select_Product_by_category. rewrite list_elem_of_filter. tauto. Qed.

Lemma select_Product_by_category_empty (d : database) (category_id : Z) :
  (forall p, p ∈ Product_rows d -> p_categoryId p <> Some category_id) ->
  select_Product_by_category d category_id = [].
Proof.
  intros H. destruct (select_Product_by_category d category_id) as [|p l] eqn:Hs;
    [reflexivity|].
  assert (Hp : p ∈ select_Product_by_category d category_id)
    by (rewrite Hs; apply elem_of_cons; left; reflexivity).
  apply select_Product_by_category_spec in Hp as [Hin Hc]. destruct (H p Hin Hc).
Qed.

(** A category that has a product is one the driver binds. *)
Lemma select_fits (d : database) (category_id : Z) (p : Product) :
  p ∈ select_Product_by_category d category_id -> fits d category_id = true.
Proof.
  intros Hp. apply select_Product_by_category_spec in Hp as [Hin Hc].
  pose proof (rows_fit d) as Hfit. rewrite Forall_forall in Hfit.
  specialize (Hfit p Hin). rewrite Hc in Hfit. exact Hfit.
Qed.

(** C5 (as the code has it): the products listed for a category are
    exactly the rows of that category; when no row has the category and
    the driver binds the identifier, the list is empty and [show_products]
    answers with the "no products" text and ends normally; an identifier
    that the driver cannot bind makes the query raise before anything is
    sent. *)
Theorem C5_list_products_by_category (d : database) (category_id : Z) :
  (forall p, p ∈ select_Product_by_category d category_id
             <-> p ∈ Product_rows d /\ p_categoryId p = Some category_id)
  /\ ((forall p, p ∈ Product_rows d -> p_categoryId p <> Some category_id) ->
      select_Product_by_category d category_id = []
      /\ forall (E : env) (query : query_like) (w : world),
           db E = Some d ->
           (fits d category_id = true ->
            api_ok E
              (trace w ++ [ Log INFO (FetchingProducts category_id);
                            Execute (SelectProductByCategory category_id);
                            Log INFO (FoundProducts []) ])
              (render_event query no_products None) = true ->
            show_products E query category_id w
            = (Ok tt,
               add_events w
                 [ Log INFO (FetchingProducts category_id);
                   Execute (SelectProductByCategory category_id);
                   Log INFO (FoundProducts []);
                   render_event query no_products None ]))
           /\ (fits d category_id = false ->
               show_products E query category_id w
               = (Raise OverflowError,
                  add_events w
                    [ Log INFO (FetchingProducts category_id);
                      Execute (SelectProductByCategory category_id) ]))).
Proof.
  split; [intros p; apply select_Product_by_category_spec|].
  intros Hnone. pose proof (select_Product_by_category_empty d category_id Hnone) as Hempty.
  split; [exact Hempty|]. intros E query w Hdb. split.
  - intros Hfits Hok. unfold show_products.
    rewrite bind_log, (bind_execute E (SelectProductByCategory category_id) d _ _ Hdb Hfits), Hempty, bind_log.
    rewrite edit_message_text_run, !add_events_app. cbn [trace add_events app].
    rewrite Hok. reflexivity.
  - intros Hfits. unfold show_products.
    rewrite bind_log, (bind_execute_unbound E (SelectProductByCategory category_id) d _ _ Hdb Hfits), add_events_app.
    reflexivity.
Qed.

(** The first row after [order_by ... desc] is a row of maximal count. *)
Lemma insert_desc_head (rank : Product -> nat) (g : Product * nat)
    (l : list (Product * nat)) :
  exists h t, insert_desc rank g l = h :: t
              /\ ((h = g /\ forall x, head l = Some x -> x.2 <= g.2)
                  \/ (head l = Some h /\ g.2 <= h.2)).
Proof.
  destruct l as [|x l]; simpl.
  - exists g, []. split; [reflexivity|]. left. split; [reflexivity | discriminate].
  - destruct ((x.2 <? g.2) || ((x.2 =? g.2) && (rank g.1 <=? rank x.1))) eqn:Hcmp.
    + exists g, (x :: l). split; [reflexivity|]. left. split; [reflexivity|].
      intros y Hy; injection Hy as <-.
      apply orb_true_iff in Hcmp as [H | H].
      * apply Nat.ltb_lt in H. lia.
      * apply andb_true_iff in H as [H _]. apply Nat.eqb_eq in H. lia.
    + exists x, (insert_desc rank g l). split; [reflexivity|]. right.
      split; [reflexivity|].
      apply orb_false_iff in Hcmp as [H _]. apply Nat.ltb_ge in H. exact H.
Qed.

Lemma order_by_count_desc_head (rank : Product -> nat) (l : list (Product * nat)) :
  match head (order_by_count_desc rank l) with
  | Some h => h ∈ l /\ forall g, g ∈ l -> g.2 <= h.2
  | None => l = []
  end.
Proof.
  induction l as [|g l IH]; simpl; [reflexivity|].
  destruct (insert_desc_head rank g (order_by_count_desc rank l)) as (h & t & -> & Hh).
  simpl. destruct Hh as [[-> Hle] | [Hh Hle]].
  - split; [apply elem_of_cons; left; reflexivity|].
    intros g' Hg'. apply elem_of_cons in Hg' as [-> | Hg']; [lia|].
    destruct (head (order_by_count_desc rank l)) as [h|] eqn:Hhd.
    + destruct IH as [_ IH]. specialize (IH g' Hg'). specialize (Hle h eq_refl). lia.
    + subst l. inversion Hg'.
  - rewrite Hh in IH. destruct IH as [Hin IH].
    split; [apply elem_of_cons; right; exact Hin|].
    intros g' Hg'. apply elem_of_cons in Hg' as [-> | Hg']; [exact Hle | auto].
Qed.

Lemma head_take_1 {A} (l : list A) : head (take 1 l) = head l.
Proof. destruct l; reflexivity. Qed.

Lemma join_group_by_id_spec (d : database) (g : Product * nat) :
  g ∈ join_group_by_id d
  <-> g.1 ∈ Product_rows d /\ g.2 = count_lines d g.1 /\ 0 < g.2.
Proof.
  unfold join_group_by_id. rewrite list_elem_of_filter, list_elem_of_fmap. split.
  - intros (Hpos & p & -> & Hp); simpl; auto.
  - intros (Hp & Hc & Hpos). split; [exact Hpos|]. exists g.1.
    split; [destruct g; simpl in *; congruence | exact Hp].
Qed.

(** The product chosen by the query has order-lines, and no product has
    more; no product is chosen exactly when no product has an order-line. *)
Lemma select_most_ordered_product_spec (d : database) :
  match select_most_ordered_product d with
  | Some p =>
      p ∈ Product_rows d /\ 0 < count_lines d p
      /\ forall p', p' ∈ Product_rows d -> count_lines d p' <= count_lines d p
  | None => forall p, p ∈ Product_rows d -> count_lines d p = 0
  end.
Proof.
  unfold select_most_ordered_product. rewrite head_take_1.
  pose proof (order_by_count_desc_head (tie_rank d) (join_group_by_id d)) as H.
  destruct (head (order_by_count_desc (tie_rank d) (join_group_by_id d))) as [[p n]|]; simpl.
  - destruct H as [Hin Hmax].
    apply join_group_by_id_spec in Hin as (Hp & Hn & Hpos); simpl in *. subst n.
    split; [exact Hp|]. split; [exact Hpos|]. intros p' Hp'.
    destruct (count_lines d p') as [|k] eqn:Hk; [lia|].
    assert (Hg : (p', S k) ∈ join_group_by_id d).
    { apply join_group_by_id_spec; simpl. split; [exact Hp'|]. split; [congruence | lia]. }
    apply Hmax in Hg; simpl in Hg; lia.
  - intros p Hp. destruct (count_lines d p) as [|k] eqn:Hk; [reflexivity|].
    assert (Hg : (p, S k) ∈ join_group_by_id d).
    { apply join_group_by_id_spec; simpl. split; [exact Hp|]. split; [congruence | lia]. }
    rewrite H in Hg. inversion Hg.
Qed.

Lemma count_lines_no_orders (d : database) (p : Product) :
  OrderProducts_rows d = [] -> count_lines d p = 0.
Proof. unfold count_lines, order_lines. intros ->; reflexivity. Qed.

(** C3: the query returns a product that has order-lines and the highest
    count of them, or none when no product has any.  With the products P1
    (3 order-lines) and P2 (1 order-line) it returns P1; with no order-line
    at all it returns none, and the answer is the "no information" text. *)
Theorem C3_most_ordered_product (d : database) :
  match select_most_ordered_product d with
  | Some p =>
      p ∈ Product_rows d /\ 0 < count_lines d p
      /\ forall p', p' ∈ Product_rows d -> count_lines d p' <= count_lines d p
  | None => forall p, p ∈ Product_rows d -> count_lines d p = 0
  end
  /\ (forall P1 P2 : Product,
        (forall p, p ∈ Product_rows d <-> p = P1 \/ p = P2) ->
        count_lines d P1 = 3 -> count_lines d P2 = 1 ->
        select_most_ordered_product d = Some P1)
  /\ (OrderProducts_rows d = [] ->
      select_most_ordered_product d = None
      /\ forall (E : env) (query : query_like) (w : world),
           db E = Some d ->
           api_ok E
             (trace w ++ [ Log INFO FetchingMostOrdered;
                           Execute SelectMostOrderedProduct;
                           Log INFO (MostOrdered None) ])
             (render_event query no_most_ordered (Some return_otros_keyboard)) = true ->
           show_most_ordered_product E query w
           = (Ok tt,
              add_events w
                [ Log INFO FetchingMostOrdered;
                  Execute SelectMostOrderedProduct;
                  Log INFO (MostOrdered None);
                  render_event query no_most_ordered (Some return_otros_keyboard) ])).
Proof.
  pose proof (select_most_ordered_product_spec d) as Hspec.
  split; [exact Hspec|]. split.
  - intros P1 P2 Hrows H1 H2.
    destruct (select_most_ordered_product d) as [p|].
    + destruct Hspec as (Hp & _ & Hmax). apply Hrows in Hp as [-> | ->]; [reflexivity|].
      assert (HP1 : P1 ∈ Product_rows d) by (apply Hrows; auto).
      specialize (Hmax P1 HP1). lia.
    + assert (HP1 : P1 ∈ Product_rows d) by (apply Hrows; auto).
      specialize (Hspec P1 HP1). lia.
  - intros Hno.
    assert (Hnone : select_most_ordered_product d = None).
    { destruct (select_most_ordered_product d) as [p|]; [|reflexivity].
      destruct Hspec as (_ & Hpos & _). rewrite (count_lines_no_orders d p Hno) in Hpos. lia. }
    split; [exact Hnone|]. intros E query w Hdb Hok.
    unfold show_most_ordered_product.
    rewrite bind_log, (bind_execute E SelectMostOrderedProduct d _ _ Hdb eq_refl), Hnone, bind_log, bind_ret.
    rewrite edit_message_text_run, !add_events_app. cbn [trace add_events app].
    rewrite Hok. reflexivity.
Qed.

(* ===================================================================== *)
(** ** Prices                                                              *)
(* ===================================================================== *)





(** A product whose price is NULL stops the loop with [TypeError]: no
    row, and then no message, is produced. *)
Lemma product_buttons_unpriced (ps : list Product) (w : world) :
  Exists (fun p => p_price p = None) ps ->
  product_buttons ps w = (Raise TypeError, w).
Proof.
  induction ps as [|p ps IH]; intros H; [inversion H|]. simpl.
  unfold product_button, format_price.
  destruct (p_price p) as [price|] eqn:Hprice.
  - inversion H as [? ? Hp | ? ? Hps]; subst; [congruence|].
    rewrite bind_bind, !bind_ret. unfold bind at 1. rewrite (IH Hps). reflexivity.
  - rewrite bind_bind, bind_raise. reflexivity.
Qed.

Lemma show_products_unpriced (E : env) (d : database) (query : query_like)
    (category_id : Z) (w : world) :
  db E = Some d ->
  Exists (fun p => p_price p = None) (select_Product_by_category d category_id) ->
  show_products E query category_id w
  = (Raise TypeError,
     add_events w
       [ Log INFO (FetchingProducts category_id);
         Execute (SelectProductByCategory category_id);
         Log INFO (FoundProducts (select_Product_by_category d category_id)) ]).
Proof.
  intros Hdb Hnull.
  assert (Hfits : fits d category_id = true).
  { apply Exists_exists in Hnull as (p & Hp & _). exact (select_fits d category_id p Hp). }
  unfold show_products.
  rewrite bind_log, (bind_execute E (SelectProductByCategory category_id) d _ _ Hdb Hfits),
    bind_log, !add_events_app; simpl app.
  destruct (select_Product_by_category d category_id) as [|p ps] eqn:Hsel;
    [inversion Hnull|].
  unfold bind at 1. rewrite (product_buttons_unpriced _ _ Hnull). reflexivity.
Qed.


(* ===================================================================== *)
(** ** [start]                                                             *)
(* ===================================================================== *)

(** C8: an update with neither a message nor a callback query makes
    [start] log a warning and return: nothing is sent and nothing is
    raised.  With a message the name and chat come from the message, with
    a callback query from the query, and the greeting goes to that chat. *)
Theorem C8_start_origin (R : catalog) (E : env) (u : Update) (w : world) :
  (message u = None -> callback_query u = None ->
   start R E u w
   = (Ok tt, add_events w [ Log INFO HandlingStart; Log WARNING NoMessageOrCallback ]))
  /\ (forall m, message u = Some m ->
        start_origin u = Some (first_name (from_user m), chat_id m)
        /\ exists rest,
             trace (start R E u w).2
             = trace w
               ++ [ Log INFO HandlingStart; Log INFO (ChatId (chat_id m));
                    ReplyText (chat_id m)
                      (greeting_message R (first_name (from_user m))
                         (lit "`" ++ str_of_Z (chat_id m) ++ lit "`"))
                      (Some (lit "Markdown")) None ] ++ rest)
  /\ (forall q, message u = None -> callback_query u = Some q ->
        start_origin u = Some (first_name (cq_from_user q), chat_id (cq_message q))
        /\ exists rest,
             trace (start R E u w).2
             = trace w
               ++ [ Log INFO HandlingStart; Log INFO (ChatId (chat_id (cq_message q)));
                    EditText (chat_id (cq_message q))
                      (greeting_message R (first_name (cq_from_user q))
                         (lit "`" ++ str_of_Z (chat_id (cq_message q)) ++ lit "`"))
                      (Some (lit "Markdown")) None ] ++ rest).
Proof.
  split; [| split].
  - intros Hm Hq. unfold start, start_origin. rewrite Hm, Hq, bind_log.
    unfold log, emit, add_events; simpl. rewrite <- app_assoc. reflexivity.
  - intros m Hm. unfold start, start_origin, start_send. rewrite Hm.
    split; [reflexivity|]. rewrite !bind_log.
    unfold bind, reply_text. rewrite !call_run.
    match goal with |- context [api_ok E ?tr ?ev] => destruct (api_ok E tr ev) end.
    + eexists. rewrite !add_events_app. simpl. reflexivity.
    + exists []. rewrite !add_events_app. simpl. reflexivity.
  - intros q Hm Hq. unfold start, start_origin, start_send. rewrite Hm, Hq.
    split; [reflexivity|]. rewrite !bind_log.
    unfold bind, edit_text. rewrite !call_run.
    match goal with |- context [api_ok E ?tr ?ev] => destruct (api_ok E tr ev) end.
    + eexists. rewrite !add_events_app. simpl. reflexivity.
    + exists []. rewrite !add_events_app. simpl. reflexivity.
Qed.

(* ===================================================================== *)
(** ** [button]                                                            *)
(* ===================================================================== *)

Lemma product_token_not_recognized (s : str) : ~ recognized (lit "product_" ++ s).
Proof.
  intros [Hin | Hpre]; [|discriminate Hpre].
  unfold exact_tokens in Hin.
  repeat (apply elem_of_cons in Hin as [Heq | Hin]; [cbv in Heq; discriminate Heq|]).
  inversion Hin.
Qed.

(** C9: for a callback token that is none of the exact tokens and does not
    begin with ["category_"] (the ["product_<id>"] tokens of the product
    buttons are such tokens) [button] answers the callback, logs the token
    and returns: no message is sent or edited and no history changes. *)
Theorem C9_unrecognized_token (U : unicode) (R : catalog) (E : env) (u : Update)
    (q : CallbackQuery) (w : world) :
  callback_query u = Some q ->
  api_ok E (trace w) Answer = true ->
  (~ recognized (data q) ->
   button U R E u w
   = (Ok tt, add_events w [ Answer; Log INFO (CallbackDataReceived (data q)) ]))
  /\ (forall s, data q = lit "product_" ++ s ->
      button U R E u w
      = (Ok tt, add_events w [ Answer; Log INFO (CallbackDataReceived (data q)) ])).
Proof.
  intros Hq Hok.
  assert (Hmain : ~ recognized (data q) ->
    button U R E u w
    = (Ok tt, add_events w [ Answer; Log INFO (CallbackDataReceived (data q)) ])).
  { intros Hnot. unfold button. rewrite Hq.
    unfold bind at 1. rewrite call_run, Hok, bind_log, add_events_app.
    destruct (startswith (data q) (lit "category_")) eqn:Hpre;
      [exfalso; apply Hnot; right; exact Hpre|].
    repeat match goal with
           | |- context [bool_decide (data q = ?t)] =>
               destruct (bool_decide_reflect (data q = t)) as [Heq | _];
               [ exfalso; apply Hnot; left; rewrite Heq; unfold exact_tokens;
                 repeat first [ apply list_elem_of_here | apply list_elem_of_further ] |]
           end.
    reflexivity. }
  split; [exact Hmain|].
  intros s Hs. apply Hmain. rewrite Hs. apply product_token_not_recognized.
Qed.

(** The second segment of a token that begins with ["category_"]: it runs
    from the first underscore to the next one, or to the end. *)
Lemma category_segment (token : str) :
  startswith token (lit "category_") = true ->
  exists segment rest,
    token = lit "category_" ++ segment ++ rest
    /\ (underscore ∉ segment)
    /\ (rest = [] \/ exists r, rest = underscore :: r)
    /\ split underscore token !! 1%nat = Some segment.
Proof.
  intros Hpre. apply startswith_spec in Hpre as [tail ->].
  destruct (split_first underscore tail) as (seg & segs & Hsplit & Hseg & Htail).
  assert (Hs : split underscore (lit "category_" ++ tail) = lit "category" :: seg :: segs).
  { change (lit "category_" ++ tail) with (lit "category" ++ underscore :: tail).
    rewrite split_app_sep, Hsplit; [reflexivity|].
    cbv. intros H. repeat (apply elem_of_cons in H as [H | H]; [discriminate H|]).
    inversion H. }
  destruct Htail as [[-> ->] | (r & -> & ->)].
  - exists seg, []. rewrite app_nil_r, Hs. auto.
  - exists seg, (underscore :: r). rewrite Hs. repeat split; eauto.
Qed.

(** C10: for a token that begins with ["category_"], [button] takes the
    segment between the first underscore and the next, and [int] of it
    succeeds exactly when the segment is a decimal integer literal; then
    the products of that category are shown, otherwise [ValueError] leaves
    the handler. *)
Theorem C10_category_token (U : unicode) (R : catalog) (E : env) (u : Update)
    (q : CallbackQuery) (w : world) :
  unicode_wf U ->
  callback_query u = Some q ->
  startswith (data q) (lit "category_") = true ->
  api_ok E (trace w) Answer = true ->
  exists segment rest,
    data q = lit "category_" ++ segment ++ rest
    /\ (underscore ∉ segment)
    /\ (rest = [] \/ exists r, rest = underscore :: r)
    /\ split underscore (data q) !! 1%nat = Some segment
    /\ ((exists z, int U segment = Some z) <-> decimal_literal U segment)
    /\ (forall z, int U segment = Some z ->
        button U R E u w
        = show_products E (RealQuery q) z
            (add_events w [ Answer; Log INFO (CallbackDataReceived (data q)) ]))
    /\ (~ decimal_literal U segment ->
        button U R E u w
        = (Raise ValueError,
           add_events w [ Answer; Log INFO (CallbackDataReceived (data q)) ])).
Proof.
  intros WF Hq Hpre Hok.
  destruct (category_segment (data q) Hpre) as (segment & rest & Hdata & Hseg & Hrest & Hsplit).
  exists segment, rest.
  pose proof (int_iff_literal U WF segment Hseg) as Hiff.
  assert (Hmenu : data q <> lit "menu").
  { intros Heq. rewrite Heq in Hpre. discriminate Hpre. }
  assert (Hrun : button U R E u w
    = match int U segment with
      | Some z => show_products E (RealQuery q) z
                    (add_events w [ Answer; Log INFO (CallbackDataReceived (data q)) ])
      | None => (Raise ValueError,
                 add_events w [ Answer; Log INFO (CallbackDataReceived (data q)) ])
      end).
  { unfold button. rewrite Hq. unfold bind at 1.
    rewrite call_run, Hok, bind_log, add_events_app.
    rewrite (bool_decide_eq_false_2 _ Hmenu), Hpre. unfold str in *. rewrite Hsplit.
    destruct (int U segment); reflexivity. }
  repeat split; try assumption; try apply Hiff.
  - intros z Hz. rewrite Hrun, Hz. reflexivity.
  - intros Hnot. rewrite Hrun. destruct (int U segment) as [z|] eqn:Hz; [|reflexivity].
    exfalso. apply Hnot, Hiff. eauto.
Qed.

(** The tokens that [show_categories] puts on its buttons come back to
    [show_products] with the category's identifier. *)
Lemma button_category_round_trip (U : unicode) (R : catalog) (E : env) (u : Update)
    (q : CallbackQuery) (w : world) (id : Z) :
  unicode_wf U -> ascii_digits U ->
  callback_query u = Some q ->
  data q = lit "category_" ++ str_of_Z id ->
  api_ok E (trace w) Answer = true ->
  button U R E u w
  = show_products E (RealQuery q) id
      (add_events w [ Answer; Log INFO (CallbackDataReceived (data q)) ]).
Proof.
  intros WF AD Hq Hdata Hok.
  assert (Hpre : startswith (data q) (lit "category_") = true)
    by (apply startswith_spec; eauto).
  assert (Hmenu : data q <> lit "menu")
    by (intros Heq; rewrite Heq in Hpre; discriminate Hpre).
  assert (Hsplit : split underscore (data q) !! 1%nat = Some (str_of_Z id)).
  { rewrite Hdata.
    change (lit "category_" ++ str_of_Z id) with (lit "category" ++ underscore :: str_of_Z id).
    rewrite split_app_sep, (split_no_sep _ _ (str_of_Z_no_underscore id)); [reflexivity|].
    cbv. intros H. repeat (apply elem_of_cons in H as [H | H]; [discriminate H|]).
    inversion H. }
  unfold button. rewrite Hq. unfold bind at 1.
  rewrite call_run, Hok, bind_log, add_events_app.
  rewrite (bool_decide_eq_false_2 _ Hmenu), Hpre. unfold str in *. rewrite Hsplit.
  rewrite (int_str_of_Z U WF AD). reflexivity.
Qed.

(* ===================================================================== *)
(** ** [handle_text]                                                       *)
(* ===================================================================== *)

Lemma menu_test (U : unicode) (txt : str) :
  contains (lit "menú") (lower U txt) = true <-> asks_menu U txt.
Proof. apply contains_spec. Qed.

Lemma most_ordered_test (U : unicode) (txt : str) :
  existsb (fun keyword => contains keyword (lower U txt)) most_ordered_keywords = true
  <-> asks_most_ordered U txt.
Proof.
  unfold asks_most_ordered. rewrite existsb_exists. split.
  - intros (k & Hin & Hk). exists k. split; [apply list_elem_of_In; exact Hin|].
    apply contains_spec; exact Hk.
  - intros (k & Hin & Hk). exists k. split; [apply list_elem_of_In; exact Hin|].
    apply contains_spec; exact Hk.
Qed.

Lemma set_history_twice w chat h h' :
  set_history (set_history w chat h) chat h' = set_history w chat h'.
Proof. unfold set_history; simpl. rewrite insert_insert_eq. reflexivity. Qed.

Lemma set_history_add_events w chat h evs :
  set_history (add_events w evs) chat h = add_events (set_history w chat h) evs.
Proof. reflexivity. Qed.

(** The first three statements of the completion path. *)
Lemma history_prefix_run {A} (chat : Z) (t : turn) (k : list turn -> M A) (w : world) :
  bind (init_history chat)
    (fun _ => bind (append_history chat t) (fun _ => bind (read_history chat) k)) w
  = k (history_of w chat ++ [t]) (set_history w chat (history_of w chat ++ [t])).
Proof.
  unfold bind, init_history, append_history, read_history, history_of, set_history.
  destruct (chat_data w !! chat) as [h|] eqn:Hh; simpl.
  - rewrite Hh; simpl. rewrite lookup_insert_eq. reflexivity.
  - rewrite lookup_insert_eq; simpl. rewrite lookup_insert_eq, insert_insert_eq. reflexivity.
Qed.

Lemma append_history_run (chat : Z) (t : turn) (h : list turn) (w : world) :
  chat_data w !! chat = Some h ->
  append_history chat t w = (Ok tt, set_history w chat (h ++ [t])).
Proof. intros H. unfold append_history. rewrite H. reflexivity. Qed.

(** What [handle_text] does with a text that matches no keyword. *)
Lemma handle_text_completion_path (U : unicode) (R : catalog) (E : env) (u : Update)
    (m : Message) (w : world) :
  message u = Some m ->
  ~ asks_menu U (text m) ->
  ~ asks_most_ordered U (text m) ->
  let chat := chat_id m in
  let h1 := history_of w chat ++ [user_turn (text m)] in
  let messages := build_messages R h1 in
  let w1 := add_events (set_history w chat h1)
              [ Log INFO (ReceivedMessage (text m));
                ChatCompletionCreate (lit "gpt-3.5-turbo") messages ] in
  handle_text U R E u w
  = match completion_text U (chat_completion E messages) with
    | Ok reply =>
        let ev := ReplyText chat reply None None in
        let w2 := add_events (set_history w1 chat (h1 ++ [assistant_turn reply])) [ev] in
        if api_ok E (trace w1) ev then (Ok tt, w2)
        else send_apology E m TelegramError w2
    | Raise e => send_apology E m e w1
    end.
Proof.
  intros Hm Hmenu Hmost chat h1 messages w1.
  unfold handle_text. rewrite Hm, bind_log.
  destruct (contains (lit "menú") (lower U (text m))) eqn:Hc1;
    [destruct Hmenu; apply menu_test; exact Hc1|].
  destruct (existsb (fun keyword => contains keyword (lower U (text m)))
              most_ordered_keywords) eqn:Hc2;
    [destruct Hmost; apply most_ordered_test; exact Hc2|].
  rewrite history_prefix_run. fold chat (user_turn (text m)).
  change (history_of (add_events w [Log INFO (ReceivedMessage (text m))]) chat)
    with (history_of w chat).
  fold h1 messages. rewrite set_history_add_events.
  unfold try_except, ChatCompletion_create. rewrite bind_bind, bind_emit, add_events_app.
  simpl app. fold w1.
  assert (Hexcept : forall e w',
    bind (log ERROR (ErrorGenerating e)) (fun _ => reply_text E m apology None None) w'
    = send_apology E m e w').
  { intros e w'. rewrite bind_log. unfold reply_text, send_apology.
    rewrite call_run, add_events_app. reflexivity. }
  destruct (chat_completion E messages) as [|[|[content|] choices]]; simpl completion_text;
    cbv beta iota.
  - rewrite bind_raise. apply Hexcept.
  - rewrite bind_ret. unfold first_choice_content. rewrite bind_raise. apply Hexcept.
  - rewrite bind_ret. unfold first_choice_content. rewrite bind_ret.
    fold (assistant_turn (strip U content)).
    unfold bind at 1.
    rewrite (append_history_run chat _ h1);
      [| unfold w1, set_history, add_events; simpl; apply lookup_insert_eq].
    unfold reply_text. rewrite call_run. fold chat. cbn [trace set_history].
    destruct (api_ok E (trace w1) (ReplyText chat (strip U content) None None));
      [reflexivity|].
    apply Hexcept.
  - rewrite bind_ret. unfold first_choice_content. rewrite bind_raise. apply Hexcept.
Qed.

(** C1: when the call to the completion API (or the reading of its first
    choice) raises, [handle_text] logs the error and sends the fixed
    apology; the chat's history is the old one with the user's turn
    appended, and no assistant turn. *)
Theorem C1_completion_failure_apology (U : unicode) (R : catalog) (E : env) (u : Update)
    (m : Message) (w : world) (e : exn) :
  message u = Some m ->
  ~ asks_menu U (text m) ->
  ~ asks_most_ordered U (text m) ->
  let h1 := history_of w (chat_id m) ++ [user_turn (text m)] in
  completion_text U (chat_completion E (build_messages R h1)) = Raise e ->
  let apology_call := ReplyText (chat_id m) apology None None in
  let before :=
    [ Log INFO (ReceivedMessage (text m));
      ChatCompletionCreate (lit "gpt-3.5-turbo") (build_messages R h1);
      Log ERROR (ErrorGenerating e) ] in
  handle_text U R E u w
  = (if api_ok E (trace w ++ before) apology_call then Ok tt else Raise TelegramError,
     {| chat_data := <[chat_id m := h1]> (chat_data w);
        trace := trace w ++ before ++ [apology_call] |})
  /\ history_of (handle_text U R E u w).2 (chat_id m)
     = history_of w (chat_id m) ++ [user_turn (text m)].
Proof.
  intros Hm Hmenu Hmost h1 Hfail apology_call before.
  pose proof (handle_text_completion_path U R E u m w Hm Hmenu Hmost) as Hrun.
  cbv zeta in Hrun. fold h1 in Hrun. rewrite Hfail in Hrun. rewrite Hrun.
  unfold send_apology. split.
  - rewrite add_events_app. cbn [trace add_events set_history].
    rewrite <- app_assoc. reflexivity.
  - unfold history_of at 1; simpl. rewrite lookup_insert_eq. reflexivity.
Qed.

Lemma quiet_no_completion_call {A} (m : M A) (w : world) (evs : list event) :
  quiet m -> Forall (fun ev => ~ is_completion ev) evs ->
  no_completion_call w (m (add_events w evs)).2.
Proof.
  intros Hq Hevs. destruct (Hq (add_events w evs)) as (Hc & evs' & Ht & Hevs').
  split; [exact Hc|]. exists (evs ++ evs'). split.
  - rewrite Ht; simpl. rewrite app_assoc. reflexivity.
  - apply Forall_app; auto.
Qed.

(** C2 (as the code has it): a text whose lower-case form contains "menú"
    is answered with the category list; a text that does not, and contains
    one of the three "most ordered" phrasings, is answered with the
    most-ordered product.  In both cases no completion call is made and
    no history changes. *)
Theorem C2_keyword_routing (U : unicode) (R : catalog) (E : env) (u : Update)
    (m : Message) (w : world) :
  message u = Some m ->
  (asks_menu U (text m) ->
   routed_to (show_categories E) U R E u m w
   /\ no_completion_call w (handle_text U R E u w).2)
  /\ (~ asks_menu U (text m) -> asks_most_ordered U (text m) ->
      routed_to (show_most_ordered_product E) U R E u m w
      /\ no_completion_call w (handle_text U R E u w).2).
Proof.
  intros Hm. split.
  - intros Hmenu. apply menu_test in Hmenu.
    assert (Hr : routed_to (show_categories E) U R E u m w).
    { unfold routed_to, handle_text. rewrite Hm, bind_log, Hmenu. reflexivity. }
    split; [exact Hr|]. rewrite Hr.
    apply quiet_no_completion_call; [apply quiet_show_categories|].
    repeat constructor. simpl; tauto.
  - intros Hmenu Hmost. apply most_ordered_test in Hmost.
    assert (Hc : contains (lit "menú") (lower U (text m)) = false).
    { destruct (contains (lit "menú") (lower U (text m))) eqn:Hc; [|reflexivity].
      destruct Hmenu. apply menu_test; exact Hc. }
    assert (Hr : routed_to (show_most_ordered_product E) U R E u m w).
    { unfold routed_to, handle_text. rewrite Hm, bind_log, Hc, Hmost. reflexivity. }
    split; [exact Hr|]. rewrite Hr.
    apply quiet_no_completion_call; [apply quiet_show_most_ordered_product|].
    repeat constructor. simpl; tauto.
Qed.

(* ===================================================================== *)
(** ** The system turn is never stored                                     *)
(* ===================================================================== *)

Lemma inv_empty (R : catalog) : inv R empty_world.
Proof.
  split; [|constructor]. intros chat h H. simpl in H.
  rewrite lookup_empty in H. discriminate.
Qed.

Lemma not_completion_prompt_ok (R : catalog) (ev : event) :
  ~ is_completion ev -> prompt_ok R ev.
Proof. destruct ev; simpl; tauto. Qed.

Lemma inv_add_events (R : catalog) (w : world) (evs : list event) :
  inv R w -> Forall (prompt_ok R) evs -> inv R (add_events w evs).
Proof. intros [Hs Ht] Hevs. split; [exact Hs | apply Forall_app; auto]. Qed.

Lemma inv_set_history (R : catalog) (w : world) (chat : Z) (h : list turn) :
  inv R w -> no_system h -> inv R (set_history w chat h).
Proof.
  intros [Hs Ht] Hh. split; [|exact Ht]. intros c h' H. simpl in H.
  destruct (decide (chat = c)) as [->|Hne].
  - rewrite lookup_insert_eq in H. injection H as <-. exact Hh.
  - rewrite lookup_insert_ne in H by exact Hne. exact (Hs c h' H).
Qed.

Lemma no_system_history_of (R : catalog) (w : world) (chat : Z) :
  inv R w -> no_system (history_of w chat).
Proof.
  intros [Hs _]. unfold history_of.
  destruct (chat_data w !! chat) as [h|] eqn:Hh; simpl; [exact (Hs chat h Hh) | constructor].
Qed.

Lemma inv_quiet {A} (R : catalog) (m : M A) (w : world) :
  quiet m -> inv R w -> inv R (m w).2.
Proof.
  intros Hq [Hs Ht]. destruct (Hq w) as (Hc & evs & Htr & Hevs). split.
  - intros chat h H. rewrite Hc in H. exact (Hs chat h H).
  - rewrite Htr. apply Forall_app. split; [exact Ht|].
    eapply Forall_impl; [exact Hevs | apply not_completion_prompt_ok].
Qed.

Lemma inv_handle_text (U : unicode) (R : catalog) (E : env) (u : Update) (w : world) :
  inv R w -> inv R (handle_text U R E u w).2.
Proof.
  intros Hinv. destruct (message u) as [m|] eqn:Hm;
    [| unfold handle_text; rewrite Hm; exact Hinv].
  destruct (contains (lit "menú") (lower U (text m))) eqn:Hc1.
  { unfold handle_text. rewrite Hm, bind_log, Hc1.
    apply inv_quiet; [apply quiet_show_categories|].
    apply inv_add_events; [exact Hinv | repeat constructor]. }
  destruct (existsb (fun keyword => contains keyword (lower U (text m)))
              most_ordered_keywords) eqn:Hc2.
  { unfold handle_text. rewrite Hm, bind_log, Hc1, Hc2.
    apply inv_quiet; [apply quiet_show_most_ordered_product|].
    apply inv_add_events; [exact Hinv | repeat constructor]. }
  assert (Hmenu : ~ asks_menu U (text m)) by (rewrite <- menu_test; congruence).
  assert (Hmost : ~ asks_most_ordered U (text m))
    by (rewrite <- most_ordered_test; congruence).
  rewrite (handle_text_completion_path U R E u m w Hm Hmenu Hmost). cbv zeta.
  set (h1 := history_of w (chat_id m) ++ [user_turn (text m)]).
  assert (Hh1 : no_system h1).
  { apply Forall_app. split; [apply (no_system_history_of R); exact Hinv|].
    repeat constructor. discriminate. }
  assert (Hw1 : inv R (add_events (set_history w (chat_id m) h1)
                         [ Log INFO (ReceivedMessage (text m));
                           ChatCompletionCreate (lit "gpt-3.5-turbo")
                             (build_messages R h1) ])).
  { apply inv_add_events; [apply inv_set_history; assumption|].
    repeat constructor. exists h1. split; [reflexivity | exact Hh1]. }
  destruct (completion_text U (chat_completion E (build_messages R h1))) as [reply|e].
  - assert (Hw2 : inv R (add_events
                           (set_history
                              (add_events (set_history w (chat_id m) h1)
                                 [ Log INFO (ReceivedMessage (text m));
                                   ChatCompletionCreate (lit "gpt-3.5-turbo")
                                     (build_messages R h1) ])
                              (chat_id m) (h1 ++ [assistant_turn reply]))
                           [ ReplyText (chat_id m) reply None None ])).
    { apply inv_add_events; [|repeat constructor].
      apply inv_set_history; [exact Hw1|].
      apply Forall_app. split; [exact Hh1 | repeat constructor; discriminate]. }
    match goal with |- context [api_ok E ?tr ?ev] => destruct (api_ok E tr ev) end;
      [exact Hw2|].
    unfold send_apology. cbn [snd]. apply inv_add_events; [exact Hw2 | repeat constructor].
  - unfold send_apology. cbn [snd].
    apply inv_add_events; [exact Hw1 | repeat constructor].
Qed.

Lemma inv_handle (U : unicode) (R : catalog) (E : env) (h : handler) (u : Update)
    (w : world) :
  inv R w -> inv R (handle U R E h u w).2.
Proof.
  destruct h; simpl.
  - apply inv_quiet, quiet_start.
  - apply inv_quiet, quiet_button.
  - apply inv_handle_text.
Qed.

Lemma inv_run (U : unicode) (R : catalog) (updates : list (env * handler * Update)) :
  forall w, inv R w -> inv R (run U R updates w).
Proof.
  induction updates as [|[[E h] u] updates IH]; intros w Hw; simpl; [exact Hw|].
  apply IH, inv_handle, Hw.
Qed.

(** C6: the prompt is the system turn followed by the history; after a
    user turn and the assistant's answer have been appended it is the
    system turn, the earlier history, and the two turns, in that order.
    The system turn is put in front at every call and never stored: in any
    run, every stored history is free of system turns and every prompt
    sent has the system turn once, as its first message. *)
Theorem C6_prompt_is_system_then_history (U : unicode) (R : catalog) :
  (forall (h : list turn) (question answer : str),
     build_messages R ((h ++ [user_turn question]) ++ [assistant_turn answer])
     = system_context R :: h ++ [user_turn question; assistant_turn answer])
  /\ (forall (E : env) (u : Update) (m : Message) (w : world) (reply : str),
        message u = Some m ->
        ~ asks_menu U (text m) ->
        ~ asks_most_ordered U (text m) ->
        completion_text U
          (chat_completion E
             (build_messages R (history_of w (chat_id m) ++ [user_turn (text m)])))
        = Ok reply ->
        let w' := (handle_text U R E u w).2 in
        history_of w' (chat_id m)
        = history_of w (chat_id m) ++ [user_turn (text m); assistant_turn reply]
        /\ ChatCompletionCreate (lit "gpt-3.5-turbo")
             (system_context R :: history_of w (chat_id m) ++ [user_turn (text m)])
           ∈ trace w'
        /\ build_messages R (history_of w' (chat_id m))
           = system_context R
             :: history_of w (chat_id m) ++ [user_turn (text m); assistant_turn reply])
  /\ (forall (updates : list (env * handler * Update)) (w : world),
        store_ok w -> Forall (prompt_ok R) (trace w) ->
        store_ok (run U R updates w)
        /\ forall model messages,
             ChatCompletionCreate model messages ∈ trace (run U R updates w) ->
             exists h, messages = system_context R :: h /\ no_system h).
Proof.
  split; [| split].
  - intros h question answer. unfold build_messages. rewrite <- app_assoc. reflexivity.
  - intros E u m w reply Hm Hmenu Hmost Hok w'.
    assert (Hhist : history_of w' (chat_id m)
                    = history_of w (chat_id m) ++ [user_turn (text m); assistant_turn reply]).
    { unfold w'. rewrite (handle_text_completion_path U R E u m w Hm Hmenu Hmost).
      cbv zeta. rewrite Hok.
      match goal with |- context [api_ok E ?tr ?ev] => destruct (api_ok E tr ev) end;
        unfold history_of at 1; simpl; rewrite lookup_insert_eq; simpl;
        rewrite <- app_assoc; reflexivity. }
    split; [exact Hhist|]. split; [| rewrite Hhist; reflexivity].
    unfold w'. rewrite (handle_text_completion_path U R E u m w Hm Hmenu Hmost).
    cbv zeta. rewrite Hok.
    match goal with |- context [api_ok E ?tr ?ev] => destruct (api_ok E tr ev) end; simpl;
      rewrite !elem_of_app, !elem_of_cons; unfold build_messages; tauto.
  - intros updates w Hs Ht.
    destruct (inv_run U R updates w (conj Hs Ht)) as [Hs' Ht'].
    split; [exact Hs'|]. intros model messages Hin.
    rewrite Forall_forall in Ht'. exact (Ht' _ Hin).
Qed.

(* ===================================================================== *)
(** ** Keyboards                                                           *)
(* ===================================================================== *)

Section Emits.
Variable P : event -> Prop.

Lemma emits_ret {A} (a : A) : emits P (ret a).
Proof. intros w. exists []. simpl. rewrite app_nil_r. auto. Qed.

Lemma emits_raise {A} (e : exn) : emits P (@raise A e).
Proof. intros w. exists []. simpl. rewrite app_nil_r. auto. Qed.

Lemma emits_emit (ev : event) : P ev -> emits P (emit ev).
Proof. intros H w. exists [ev]. simpl. auto. Qed.

Lemma emits_bind {A B} (m : M A) (k : A -> M B) :
  emits P m -> (forall a, emits P (k a)) -> emits P (bind m k).
Proof.
  intros Hm Hk w. unfold bind. destruct (Hm w) as (evs & Ht & Hevs).
  destruct (m w) as [[a|e] w1]; simpl in *.
  - destruct (Hk a w1) as (evs' & Ht' & Hevs'). exists (evs ++ evs').
    rewrite Ht', Ht, app_assoc. split; [reflexivity | apply Forall_app; auto].
  - exists evs; auto.
Qed.

Lemma emits_try_except {A} (body : M A) (handler : exn -> M A) :
  emits P body -> (forall e, emits P (handler e)) -> emits P (try_except body handler).
Proof.
  intros Hb Hh w. unfold try_except. destruct (Hb w) as (evs & Ht & Hevs).
  destruct (body w) as [[a|e] w1]; simpl in *.
  - exists evs; auto.
  - destruct (Hh e w1) as (evs' & Ht' & Hevs'). exists (evs ++ evs').
    rewrite Ht', Ht, app_assoc. split; [reflexivity | apply Forall_app; auto].
Qed.

Lemma emits_if {A} (c : bool) (a b : M A) :
  emits P a -> emits P b -> emits P (if c then a else b).
Proof. destruct c; auto. Qed.

Lemma emits_call (E : env) (ev : event) : P ev -> emits P (call E ev).
Proof.
  intros H w. unfold call.
  apply (emits_bind (emit ev)
           (fun _ => if api_ok E (trace w) ev then ret tt else raise TelegramError)).
  - apply emits_emit; exact H.
  - intros _. apply emits_if; [apply emits_ret | apply emits_raise].
Qed.

Lemma emits_init_history (chat : Z) : emits P (init_history chat).
Proof.
  intros w. exists []. unfold init_history.
  destruct (chat_data w !! chat); simpl; rewrite app_nil_r; auto.
Qed.

Lemma emits_append_history (chat : Z) (t : turn) : emits P (append_history chat t).
Proof.
  intros w. exists []. unfold append_history.
  destruct (chat_data w !! chat); simpl; rewrite app_nil_r; auto.
Qed.

Lemma emits_read_history (chat : Z) : emits P (read_history chat).
Proof.
  intros w. exists []. unfold read_history.
  destruct (chat_data w !! chat); simpl; rewrite app_nil_r; auto.
Qed.
End Emits.

Ltac emits_step :=
  first
    [ apply emits_ret | apply emits_raise
    | apply emits_init_history | apply emits_append_history | apply emits_read_history
    | apply emits_bind; [| intros ?]
    | apply emits_try_except; [| intros ?]
    | apply emits_if
    | match goal with
      | |- emits _ (match ?x with _ => _ end) => destruct x
      end ].

Lemma recognized_exact (token : str) : token ∈ exact_tokens -> known_token token.
Proof. intros H. left. left. exact H. Qed.

Lemma known_category_token (s : str) : known_token (lit "category_" ++ s).
Proof. left. right. apply startswith_spec. exists s. reflexivity. Qed.

Lemma known_product_token (s : str) : known_token (lit "product_" ++ s).
Proof. right. exists s. reflexivity. Qed.

Ltac exact_token :=
  apply recognized_exact; unfold exact_tokens;
  repeat first [ apply list_elem_of_here | apply list_elem_of_further ].

Ltac keyboard_tac :=
  unfold keyboard_ok, get_otros_keyboard, start_keyboard, return_otros_keyboard, button_row;
  repeat first [ apply Forall_nil_2 | apply Forall_cons_2 ];
  simpl callback_data;
  first [ apply known_category_token | apply known_product_token | exact_token ].

Lemma buttons_ok_log l m : buttons_ok (Log l m).
Proof. exact I. Qed.

Lemma buttons_ok_plain_reply chat txt pm : buttons_ok (ReplyText chat txt pm None).
Proof. exact I. Qed.

Lemma buttons_ok_plain_edit chat txt pm : buttons_ok (EditText chat txt pm None).
Proof. exact I. Qed.

Lemma buttons_ok_render query txt k : keyboard_ok k -> buttons_ok (render_event query txt (Some k)).
Proof. destruct query; simpl; auto. Qed.

Lemma keyboard_ok_app (k1 k2 : InlineKeyboardMarkup) :
  keyboard_ok k1 -> keyboard_ok k2 -> keyboard_ok (k1 ++ k2).
Proof. intros H1 H2. apply Forall_app; auto. Qed.

Lemma keyboard_ok_categories (cs : list Category) :
  keyboard_ok
    (map (fun c => button_row (c_name c) (lit "category_" ++ str_of_Z (c_id c))) cs).
Proof.
  unfold keyboard_ok.
  induction cs as [|c cs IH]; simpl; [apply Forall_nil_2|].
  apply Forall_cons_2; [| exact IH].
  unfold button_row. apply Forall_cons_2; [| apply Forall_nil_2].
  apply known_category_token.
Qed.

Section Keyboards.
Variable U : unicode.
Variable R : catalog.
Variable E : env.

Lemma emits_log l m : emits buttons_ok (log l m).
Proof. apply emits_emit. exact I. Qed.

Lemma emits_execute q : emits buttons_ok (execute E q).
Proof. unfold execute. apply emits_bind; [apply emits_emit; exact I | intros _].
  destruct (db E) as [d|]; [| apply emits_raise].
  apply emits_if; [apply emits_ret | apply emits_raise]. Qed.

Lemma emits_edit_message_text query txt markup :
  match markup with Some k => keyboard_ok k | None => True end ->
  emits buttons_ok (edit_message_text E query txt markup).
Proof.
  intros H. destruct query; simpl; unfold edit_text, reply_text; apply emits_call;
    destruct markup; exact H.
Qed.

Lemma product_buttons_known (ps : list Product) (w : world) :
  (product_buttons ps w).2 = w
  /\ match (product_buttons ps w).1 with
     | Ok rows => keyboard_ok rows
     | Raise _ => True
     end.
Proof.
  unfold keyboard_ok.
  induction ps as [|p ps [IHw IHk]]; cbn [product_buttons];
    [split; [reflexivity | apply Forall_nil_2]|].
  unfold product_button, format_price.
  destruct (p_price p) as [price|].
  - rewrite bind_bind, !bind_ret. unfold bind, ret.
    destruct (product_buttons ps w) as [[rows|e] w1]; cbn [fst snd] in *; [|auto].
    split; [exact IHw|]. apply Forall_cons_2; [| exact IHk].
    unfold button_row. apply Forall_cons_2; [| apply Forall_nil_2].
    apply known_product_token.
  - rewrite bind_bind, bind_raise. cbn [fst snd]. auto.
Qed.

Lemma emits_show_categories query : emits buttons_ok (show_categories E query).
Proof.
  unfold show_categories.
  apply emits_bind; [apply emits_log | intros _].
  apply emits_bind; [apply emits_execute | intros d].
  apply emits_bind; [apply emits_log | intros _].
  destruct (select_Category d) as [|c cs] eqn:Hc.
  - apply emits_edit_message_text. exact I.
  - apply emits_edit_message_text. apply keyboard_ok_app.
    + apply keyboard_ok_categories.
    + keyboard_tac.
Qed.

Lemma emits_product_keyboard query (ps : list Product) :
  emits buttons_ok
    (bind (product_buttons ps)
       (fun rows =>
          edit_message_text E query (lit "Selecciona un producto:")
            (Some (rows ++ [ button_row (lit "Regresar a Categorías ↩")
                               (lit "return_categories") ])))).
Proof.
  intros w. unfold bind. destruct (product_buttons_known ps w) as [Hw Hk].
  destruct (product_buttons ps w) as [[rows|e] w1]; cbn [fst snd] in *; subst w1.
  - apply emits_edit_message_text. apply keyboard_ok_app; [exact Hk | keyboard_tac].
  - exists []. rewrite app_nil_r. auto.
Qed.

Lemma emits_show_products query category_id :
  emits buttons_ok (show_products E query category_id).
Proof.
  unfold show_products.
  apply emits_bind; [apply emits_log | intros _].
  apply emits_bind; [apply emits_execute | intros d].
  apply emits_bind; [apply emits_log | intros _].
  destruct (select_Product_by_category d category_id) as [|p ps].
  - apply emits_edit_message_text. exact I.
  - apply emits_product_keyboard.
Qed.

Lemma emits_show_most_ordered_product query :
  emits buttons_ok (show_most_ordered_product E query).
Proof.
  unfold show_most_ordered_product.
  apply emits_bind; [apply emits_log | intros _].
  apply emits_bind; [apply emits_execute | intros d].
  apply emits_bind; [apply emits_log | intros _].
  apply emits_bind.
  - destruct (select_most_ordered_product d) as [p|]; [| apply emits_ret].
    unfold format_price. destruct (p_price p); repeat emits_step.
  - intros response. apply emits_edit_message_text. keyboard_tac.
Qed.

Lemma emits_start_send u txt pm markup :
  match markup with Some k => keyboard_ok k | None => True end ->
  emits buttons_ok (start_send E u txt pm markup).
Proof.
  intros H. unfold start_send, reply_text, edit_text.
  destruct (message u); [apply emits_call; destruct markup; exact H|].
  destruct (callback_query u); [apply emits_call; destruct markup; exact H|].
  apply emits_ret.
Qed.

Lemma emits_start u : emits buttons_ok (start R E u).
Proof.
  unfold start. apply emits_bind; [apply emits_log | intros _].
  destruct (start_origin u) as [[name chat]|]; [| apply emits_log].
  apply emits_bind; [apply emits_log | intros _].
  apply emits_bind; [apply emits_start_send; exact I | intros _].
  apply emits_start_send. keyboard_tac.
Qed.

Lemma emits_button u : emits buttons_ok (button U R E u).
Proof.
  unfold button, canned. destruct (callback_query u) as [q|]; [| apply emits_raise].
  apply emits_bind; [apply emits_call; exact I | intros _].
  apply emits_bind; [apply emits_log | intros _].
  repeat (apply emits_if;
          [ first [ apply emits_show_categories
                  | apply emits_show_most_ordered_product
                  | apply emits_start
                  | apply emits_edit_message_text; keyboard_tac
                  | apply emits_bind; [apply emits_log | intros _; apply emits_show_categories]
                  | destruct (split underscore (data q) !! 1%nat) as [segment|];
                    [ destruct (int U segment); [apply emits_show_products | apply emits_raise]
                    | apply emits_raise ] ] |]).
  apply emits_ret.
Qed.

Lemma emits_handle_text u : emits buttons_ok (handle_text U R E u).
Proof.
  unfold handle_text. destruct (message u) as [m|]; [| apply emits_raise].
  apply emits_bind; [apply emits_log | intros _].
  apply emits_if; [apply emits_show_categories|].
  apply emits_if; [apply emits_show_most_ordered_product|].
  apply emits_bind; [apply emits_init_history | intros _].
  apply emits_bind; [apply emits_append_history | intros _].
  apply emits_bind; [apply emits_read_history | intros history].
  apply emits_try_except.
  - apply emits_bind.
    + unfold ChatCompletion_create. apply emits_bind; [apply emits_emit; exact I | intros _].
      destruct (chat_completion E (build_messages R history));
        [apply emits_raise | apply emits_ret].
    + intros choices. apply emits_bind.
      * unfold first_choice_content. destruct choices as [|[c|] cs];
          [apply emits_raise | apply emits_ret | apply emits_raise].
      * intros reply. apply emits_bind; [apply emits_append_history | intros _].
        apply emits_call. exact I.
  - intros e. apply emits_bind; [apply emits_log | intros _]. apply emits_call. exact I.
Qed.
End Keyboards.

Lemma emits_handle U R E h u : emits buttons_ok (handle U R E h u).
Proof.
  destruct h; simpl; [apply emits_start | apply emits_button | apply emits_handle_text].
Qed.

(** X1: whatever the updates, every button on every keyboard the bot sends
    carries a token that [button] dispatches on, or the token of a product
    button. *)
Theorem X1_keyboard_tokens_known (U : unicode) (R : catalog)
    (updates : list (env * handler * Update)) (w : world) :
  exists evs, trace (run U R updates w) = trace w ++ evs /\ Forall buttons_ok evs.
Proof.
  revert w. induction updates as [|[[E h] u] updates IH]; intros w; simpl.
  - exists []. rewrite app_nil_r. auto.
  - destruct (emits_handle U R E h u w) as (evs & Ht & Hevs).
    destruct (IH (handle U R E h u w).2) as (evs' & Ht' & Hevs').
    exists (evs ++ evs'). rewrite Ht', Ht, app_assoc.
    split; [reflexivity | apply Forall_app; auto].
Qed.


(* ===================================================================== *)
(** ** What a handler does to the histories                                *)
(* ===================================================================== *)

Lemma completion_calls_app (a b : list event) :
  completion_calls (a ++ b) = completion_calls a + completion_calls b.
Proof.
  induction a as [|ev a IH]; [reflexivity|].
  destruct ev; simpl; rewrite IH; reflexivity.
Qed.

Lemma completion_calls_none (evs : list event) :
  Forall (fun ev => ~ is_completion ev) evs -> completion_calls evs = 0.
Proof.
  induction 1 as [|ev evs Hev _ IH]; [reflexivity|].
  destruct ev; simpl in *; try exact IH. tauto.
Qed.

(** The calls and the store after [handle_text], case by case. *)
Lemma handle_text_cases (U : unicode) (R : catalog) (E : env) (u : Update) (w : world) :
  (exists evs, (handle_text U R E u w).2 = add_events w evs
               /\ Forall (fun ev => ~ is_completion ev) evs)
  \/ (exists m h evs,
        message u = Some m
        /\ (h = history_of w (chat_id m) ++ [user_turn (text m)]
            \/ exists reply,
                 h = (history_of w (chat_id m) ++ [user_turn (text m)])
                     ++ [assistant_turn reply])
        /\ (handle_text U R E u w).2 = add_events (set_history w (chat_id m) h) evs
        /\ completion_calls evs = 1).
Proof.
  destruct (message u) as [m|] eqn:Hm.
  2:{ left. exists []. unfold handle_text. rewrite Hm. simpl.
      unfold add_events. rewrite app_nil_r. destruct w; auto. }
  assert (Hquiet : forall view : query_like -> M unit,
    (forall q, quiet (view q)) ->
    exists evs,
      (view (FakeQuery m) (add_events w [Log INFO (ReceivedMessage (text m))])).2
      = add_events w evs
      /\ Forall (fun ev => ~ is_completion ev) evs).
  { intros view Hv.
    destruct (Hv (FakeQuery m) (add_events w [Log INFO (ReceivedMessage (text m))]))
      as (Hc & evs & Ht & Hevs).
    exists (Log INFO (ReceivedMessage (text m)) :: evs). split.
    - destruct (view (FakeQuery m) _) as [r w']; simpl in *. destruct w' as [cd tr].
      simpl in *. subst. unfold add_events. simpl. rewrite <- app_assoc. reflexivity.
    - constructor; [simpl; tauto | exact Hevs]. }
  destruct (contains (lit "menú") (lower U (text m))) eqn:Hc1.
  { left. unfold handle_text. rewrite Hm, bind_log, Hc1.
    apply Hquiet. apply quiet_show_categories. }
  destruct (existsb (fun keyword => contains keyword (lower U (text m)))
              most_ordered_keywords) eqn:Hc2.
  { left. unfold handle_text. rewrite Hm, bind_log, Hc1, Hc2.
    apply Hquiet. apply quiet_show_most_ordered_product. }
  assert (Hmenu : ~ asks_menu U (text m)) by (rewrite <- menu_test; congruence).
  assert (Hmost : ~ asks_most_ordered U (text m))
    by (rewrite <- most_ordered_test; congruence).
  right. exists m.
  rewrite (handle_text_completion_path U R E u m w Hm Hmenu Hmost). cbv zeta.
  set (h1 := history_of w (chat_id m) ++ [user_turn (text m)]).
  destruct (completion_text U (chat_completion E (build_messages R h1))) as [reply|e].
  - exists (h1 ++ [assistant_turn reply]).
    match goal with |- context [api_ok E ?tr ?ev] => destruct (api_ok E tr ev) end.
    + eexists. split; [reflexivity|]. split; [right; exists reply; reflexivity|].
      cbn [snd]. rewrite set_history_add_events, set_history_twice, add_events_app.
      split; reflexivity.
    + eexists. split; [reflexivity|]. split; [right; exists reply; reflexivity|].
      unfold send_apology. cbn [snd].
      rewrite set_history_add_events, set_history_twice, !add_events_app.
      split; reflexivity.
  - exists h1. eexists. split; [reflexivity|]. split; [left; reflexivity|].
    unfold send_apology. cbn [snd]. rewrite add_events_app. split; reflexivity.
Qed.

Lemma quiet_add_events {A} (m : M A) (w : world) :
  quiet m ->
  exists evs, (m w).2 = add_events w evs /\ Forall (fun ev => ~ is_completion ev) evs.
Proof.
  intros Hq. destruct (Hq w) as (Hc & evs & Ht & Hevs). exists evs. split; [|exact Hevs].
  destruct (m w) as [r [cd tr]]; simpl in *. subst. reflexivity.
Qed.

Lemma completion_calls_handle (U : unicode) (R : catalog) (E : env)
    (h : handler) (u : Update) (w : world) :
  exists evs,
    trace (handle U R E h u w).2 = trace w ++ evs
    /\ match h with
       | OnText => completion_calls evs <= 1
       | OnStart | OnButton =>
           completion_calls evs = 0 /\ chat_data (handle U R E h u w).2 = chat_data w
       end.
Proof.
  destruct h; simpl.
  - destruct (quiet_add_events (start R E u) w (quiet_start R E u)) as (evs & -> & Hevs).
    exists evs. split; [reflexivity|]. split; [apply completion_calls_none, Hevs | reflexivity].
  - destruct (quiet_add_events (button U R E u) w (quiet_button U R E u))
      as (evs & -> & Hevs).
    exists evs. split; [reflexivity|]. split; [apply completion_calls_none, Hevs | reflexivity].
  - destruct (handle_text_cases U R E u w)
      as [(evs & -> & Hevs) | (m & h & evs & _ & _ & -> & Hone)]; exists evs.
    + split; [reflexivity|]. rewrite (completion_calls_none _ Hevs). lia.
    + split; [reflexivity | lia].
Qed.

(** X2: [start] and [button] never call the completion API and never
    change a history; [handle_text] calls the completion API at most once,
    so a run makes at most as many completion calls as it has text
    updates. *)
Theorem X2_completion_calls_per_update (U : unicode) (R : catalog) :
  (forall E h u w,
     exists evs,
       trace (handle U R E h u w).2 = trace w ++ evs
       /\ match h with
          | OnText => completion_calls evs <= 1
          | OnStart | OnButton =>
              completion_calls evs = 0 /\ chat_data (handle U R E h u w).2 = chat_data w
          end)
  /\ (forall updates w,
        exists evs,
          trace (run U R updates w) = trace w ++ evs
          /\ completion_calls evs <= text_updates updates).
Proof.
  split; [apply completion_calls_handle|].
  induction updates as [|[[E h] u] updates IH]; intros w; simpl.
  - exists []. rewrite app_nil_r. auto.
  - destruct (completion_calls_handle U R E h u w) as (evs & Ht & Hh).
    destruct (IH (handle U R E h u w).2) as (evs' & Ht' & Hle).
    exists (evs ++ evs'). rewrite Ht', Ht, app_assoc, completion_calls_app.
    split; [reflexivity|]. destruct h; lia.
Qed.

(** The store after any handler: untouched, or the history of the
    message's chat extended by the user's turn, or by that and an
    assistant turn. *)
Lemma handle_chat_data (U : unicode) (R : catalog) (E : env) (h : handler) (u : Update)
    (w : world) :
  chat_data (handle U R E h u w).2 = chat_data w
  \/ exists m extension,
       message u = Some m
       /\ (extension = [user_turn (text m)]
           \/ exists reply, extension = [user_turn (text m); assistant_turn reply])
       /\ chat_data (handle U R E h u w).2
          = <[chat_id m := history_of w (chat_id m) ++ extension]> (chat_data w).
Proof.
  destruct h; simpl.
  - left. apply (quiet_start R E u w).
  - left. apply (quiet_button U R E u w).
  - destruct (handle_text_cases U R E u w)
      as [(evs & -> & _) | (m & h & evs & Hm & Hh & -> & _)]; [left; reflexivity|].
    right. exists m. destruct Hh as [-> | [reply ->]].
    + exists [user_turn (text m)]. auto.
    + exists [user_turn (text m); assistant_turn reply]. split; [exact Hm|].
      split; [right; exists reply; reflexivity|]. simpl. rewrite <- app_assoc. reflexivity.
Qed.

(** X3: a handler leaves the history of every chat other than the one of
    the update's message as it was. *)
Theorem X3_other_chats_untouched (U : unicode) (R : catalog) (E : env) (h : handler)
    (u : Update) (w : world) (chat : Z) :
  (forall m, message u = Some m -> chat_id m <> chat) ->
  chat_data (handle U R E h u w).2 !! chat = chat_data w !! chat.
Proof.
  intros Hother.
  destruct (handle_chat_data U R E h u w) as [-> | (m & ext & Hm & _ & ->)]; [reflexivity|].
  apply lookup_insert_ne. exact (Hother m Hm).
Qed.

Lemma handle_history_prefix (U : unicode) (R : catalog) (E : env) (h : handler)
    (u : Update) (w : world) (chat : Z) :
  history_of w chat `prefix_of` history_of (handle U R E h u w).2 chat.
Proof.
  unfold history_of at 2.
  destruct (handle_chat_data U R E h u w) as [-> | (m & ext & Hm & _ & ->)];
    [reflexivity|].
  destruct (decide (chat_id m = chat)) as [<- | Hne].
  - rewrite lookup_insert_eq. simpl. apply prefix_app_r. reflexivity.
  - rewrite lookup_insert_ne by exact Hne. reflexivity.
Qed.

(** X4: histories only grow at the end: in any run, the history a chat
    had before is a prefix of the history it has after. *)
Theorem X4_histories_append_only (U : unicode) (R : catalog)
    (updates : list (env * handler * Update)) (w : world) (chat : Z) :
  history_of w chat `prefix_of` history_of (run U R updates w) chat.
Proof.
  revert w. induction updates as [|[[E h] u] updates IH]; intros w; simpl; [reflexivity|].
  etransitivity; [apply (handle_history_prefix U R E h u w chat) | apply IH].
Qed.

Lemma answers_after_user (h : list turn) (x : str) :
  answers_follow_questions h -> answers_follow_questions (h ++ [user_turn x]).
Proof.
  intros Hh pre t post Heq Ht.
  destruct post as [|p post _] using rev_ind.
  - apply app_inj_tail in Heq as [_ <-]. discriminate Ht.
  - rewrite app_comm_cons, app_assoc in Heq. apply app_inj_tail in Heq as [Heq _].
    exact (Hh pre t post Heq Ht).
Qed.

Lemma answers_after_assistant (h : list turn) (x y : str) :
  answers_follow_questions h ->
  answers_follow_questions ((h ++ [user_turn x]) ++ [assistant_turn y]).
Proof.
  intros Hh pre t post Heq Ht.
  destruct post as [|p post _] using rev_ind.
  - apply app_inj_tail in Heq as [<- _]. exists h, (user_turn x). auto.
  - rewrite app_comm_cons, app_assoc in Heq. apply app_inj_tail in Heq as [Heq _].
    exact (answers_after_user h x Hh pre t post Heq Ht).
Qed.

Lemma answers_nil : answers_follow_questions [].
Proof. intros pre t post Heq. destruct pre; discriminate Heq. Qed.

(** X5: if in every stored history each assistant turn comes right after
    a user turn, the same holds after any run. *)
Theorem X5_answers_follow_questions (U : unicode) (R : catalog)
    (updates : list (env * handler * Update)) (w : world) :
  (forall chat h, chat_data w !! chat = Some h -> answers_follow_questions h) ->
  forall chat h,
    chat_data (run U R updates w) !! chat = Some h -> answers_follow_questions h.
Proof.
  revert w. induction updates as [|[[E hd] u] updates IH]; intros w Hw; simpl; [exact Hw|].
  apply IH. intros chat h Hh.
  destruct (handle_chat_data U R E hd u w) as [Heq | (m & ext & Hm & Hext & Heq)];
    rewrite Heq in Hh; [exact (Hw chat h Hh)|].
  destruct (decide (chat_id m = chat)) as [<- | Hne].
  - rewrite lookup_insert_eq in Hh. injection Hh as <-.
    assert (Hold : answers_follow_questions (history_of w (chat_id m))).
    { unfold history_of. destruct (chat_data w !! chat_id m) as [h0|] eqn:H0; simpl;
        [exact (Hw _ _ H0) | exact answers_nil]. }
    destruct Hext as [-> | [reply ->]].
    + apply answers_after_user, Hold.
    + change [user_turn (text m); assistant_turn reply]
        with ([user_turn (text m)] ++ [assistant_turn reply]).
      rewrite app_assoc. apply answers_after_assistant, Hold.
  - rewrite lookup_insert_ne in Hh by exact Hne. exact (Hw chat h Hh).
Qed.

(* ===================================================================== *)
(** ** Failures that are not caught                                        *)
(* ===================================================================== *)

Lemma bind_execute_fails {A} (E : env) (q : sql) (k : database -> M A) (w : world) :
  db E = None -> bind (execute E q) k w = (Raise DBAPIError, add_events w [Execute q]).
Proof. intros H. unfold execute, bind, emit; simpl. rewrite H. reflexivity. Qed.

(** X6: when the database query raises, the three views raise the same
    exception before any Telegram call; a text that asks for the menu then
    gets no answer at all: the exception leaves [handle_text], which has
    no handler around the views. *)
Theorem X6_database_failure_propagates (E : env) (w : world) :
  db E = None ->
  (forall query,
     show_categories E query w
     = (Raise DBAPIError, add_events w [ Log INFO FetchingCategories; Execute SelectCategory ]))
  /\ (forall query category_id,
        show_products E query category_id w
        = (Raise DBAPIError,
           add_events w [ Log INFO (FetchingProducts category_id);
                          Execute (SelectProductByCategory category_id) ]))
  /\ (forall query,
        show_most_ordered_product E query w
        = (Raise DBAPIError,
           add_events w [ Log INFO FetchingMostOrdered; Execute SelectMostOrderedProduct ]))
  /\ (forall U R u m,
        message u = Some m -> asks_menu U (text m) ->
        handle_text U R E u w
        = (Raise DBAPIError,
           add_events w [ Log INFO (ReceivedMessage (text m));
                          Log INFO FetchingCategories; Execute SelectCategory ])).
Proof.
  intros Hdb.
  assert (Hcat : forall query w',
    show_categories E query w'
    = (Raise DBAPIError, add_events w' [ Log INFO FetchingCategories; Execute SelectCategory ])).
  { intros query w'. unfold show_categories.
    rewrite bind_log, (bind_execute_fails E _ _ _ Hdb), add_events_app. reflexivity. }
  split; [intros query; apply Hcat|]. split; [| split].
  - intros query category_id. unfold show_products.
    rewrite bind_log, (bind_execute_fails E _ _ _ Hdb), add_events_app. reflexivity.
  - intros query. unfold show_most_ordered_product.
    rewrite bind_log, (bind_execute_fails E _ _ _ Hdb), add_events_app. reflexivity.
  - intros U R u m Hm Hmenu. apply menu_test in Hmenu.
    unfold handle_text. rewrite Hm, bind_log, Hmenu, Hcat, add_events_app. reflexivity.
Qed.

(** X7: when the completion succeeds but sending its text fails, the
    assistant's turn is already in the history and stays there; the error
    is logged and the apology is sent. *)
Theorem X7_reply_failure_keeps_assistant_turn (U : unicode) (R : catalog) (E : env)
    (u : Update) (m : Message) (w : world) (reply : str) :
  message u = Some m ->
  ~ asks_menu U (text m) ->
  ~ asks_most_ordered U (text m) ->
  let h1 := history_of w (chat_id m) ++ [user_turn (text m)] in
  let asked :=
    [ Log INFO (ReceivedMessage (text m));
      ChatCompletionCreate (lit "gpt-3.5-turbo") (build_messages R h1) ] in
  let answer := ReplyText (chat_id m) reply None None in
  let apology_call := ReplyText (chat_id m) apology None None in
  completion_text U (chat_completion E (build_messages R h1)) = Ok reply ->
  api_ok E (trace w ++ asked) answer = false ->
  let before := asked ++ [ answer; Log ERROR (ErrorGenerating TelegramError) ] in
  handle_text U R E u w
  = (if api_ok E (trace w ++ before) apology_call then Ok tt else Raise TelegramError,
     {| chat_data := <[chat_id m := h1 ++ [assistant_turn reply]]> (chat_data w);
        trace := trace w ++ before ++ [apology_call] |}).
Proof.
  intros Hm Hmenu Hmost h1 asked answer apology_call Hok Hfail before.
  rewrite (handle_text_completion_path U R E u m w Hm Hmenu Hmost). cbv zeta.
  fold h1. rewrite Hok. cbn [trace add_events set_history]. fold asked answer.
  rewrite Hfail. unfold send_apology. fold apology_call.
  rewrite set_history_add_events, set_history_twice, !add_events_app.
  unfold add_events, set_history; cbn [trace chat_data].
  unfold before. rewrite <- !app_assoc. reflexivity.
Qed.

(* ===================================================================== *)
(** ** What the most-ordered query looks at                                *)
(* ===================================================================== *)

Lemma length_filter_map {A B} (f : A -> B) (v : B) `{EqDecision B} (l : list A) :
  length (filter (fun a => f a = v) l) = length (filter (fun b => b = v) (map f l)).
Proof.
  induction l as [|a l IH]; [reflexivity|]. simpl.
  rewrite !filter_cons. destruct (decide (f a = v)); simpl; rewrite IH; reflexivity.
Qed.

(** X8: the most-ordered query looks at the products and at the product
    references of the order-lines only: quantities, orders and line
    identifiers play no part.  Two databases that agree on the former give
    every product the same count; the product chosen in one has
    order-lines and a highest count in the other (none is chosen in one
    when none is in the other); and a product that no other product
    equals in order-lines is the one chosen in both, whatever the engines
    do with ties. *)
Theorem X8_most_ordered_counts_lines (d d' : database) :
  Product_rows d = Product_rows d' ->
  map op_productId (OrderProducts_rows d) = map op_productId (OrderProducts_rows d') ->
  (forall p, count_lines d p = count_lines d' p)
  /\ match select_most_ordered_product d with
     | Some p =>
         p ∈ Product_rows d' /\ 0 < count_lines d' p
         /\ forall p', p' ∈ Product_rows d' -> count_lines d' p' <= count_lines d' p
     | None => select_most_ordered_product d' = None
     end
  /\ (forall p,
        p ∈ Product_rows d -> 0 < count_lines d p ->
        (forall p', p' ∈ Product_rows d -> count_lines d p <= count_lines d p' -> p' = p) ->
        select_most_ordered_product d = Some p
        /\ select_most_ordered_product d' = Some p).
Proof.
  intros Hp Hl.
  assert (Hc : forall p, count_lines d p = count_lines d' p).
  { intros p. unfold count_lines, order_lines.
    rewrite (length_filter_map op_productId (Some (p_id p)) (OrderProducts_rows d)).
    rewrite (length_filter_map op_productId (Some (p_id p)) (OrderProducts_rows d')).
    rewrite Hl. reflexivity. }
  split; [exact Hc|]. split.
  - pose proof (select_most_ordered_product_spec d) as Hd.
    destruct (select_most_ordered_product d) as [p|].
    + destruct Hd as (Hin & Hpos & Hmax). rewrite <- Hp, <- Hc.
      split; [exact Hin|]. split; [exact Hpos|].
      intros p' Hp'. rewrite <- !Hc. apply Hmax. exact Hp'.
    + pose proof (select_most_ordered_product_spec d') as Hd'.
      destruct (select_most_ordered_product d') as [p|]; [|reflexivity].
      destruct Hd' as (Hin & Hpos & _). rewrite <- Hp in Hin.
      rewrite <- Hc, (Hd p Hin) in Hpos. lia.
  - intros p Hin Hpos Htop.
    assert (Hunique : forall e : database,
      Product_rows e = Product_rows d -> (forall x, count_lines e x = count_lines d x) ->
      select_most_ordered_product e = Some p).
    { intros e He Hce. pose proof (select_most_ordered_product_spec e) as Hs.
      destruct (select_most_ordered_product e) as [x|].
      - destruct Hs as (Hx & _ & Hmax). rewrite He in Hx.
        rewrite (Htop x Hx); [reflexivity|].
        rewrite <- He in Hin. specialize (Hmax p Hin).
        rewrite !Hce in Hmax. exact Hmax.
      - rewrite <- He in Hin. specialize (Hs p Hin). rewrite Hce in Hs. lia. }
    split.
    + apply Hunique; [reflexivity | reflexivity].
    + apply Hunique; [symmetry; exact Hp | intros x; symmetry; apply Hc].
Qed.

(* ===================================================================== *)
(** ** [start] and the navigation                                          *)
(* ===================================================================== *)

(** X9: what [start] does depends on the update and on the outcomes of
    its Telegram calls only: not on the hour (the greeting of
    [get_greeting] is computed and never used), the database or the
    completion API. *)
Theorem X9_start_ignores_the_clock (R : catalog) (E E' : env) (u : Update) (w : world) :
  same_telegram E E' -> start R E u w = start R E' u w.
Proof.
  intros Hsame.
  assert (Hcall : forall ev w', call E ev w' = call E' ev w').
  { intros ev w'. rewrite !call_run, Hsame. reflexivity. }
  assert (Hsend : forall txt pm mk w', start_send E u txt pm mk w' = start_send E' u txt pm mk w').
  { intros txt pm mk w'. unfold start_send, reply_text, edit_text.
    destruct (message u); [apply Hcall|]. destruct (callback_query u); [apply Hcall|].
    reflexivity. }
  unfold start. rewrite !bind_log.
  destruct (start_origin u) as [[name chat]|]; [| reflexivity].
  rewrite !bind_log. unfold bind. rewrite Hsend.
  destruct (start_send E' u _ _ _ _) as [[[]|e] w1]; [apply Hsend | reflexivity].
Qed.

(** X10: with a database that answers, [show_categories] sends the
    "no categories" text without a keyboard when the table is empty, and
    otherwise one button per category, in table order, labelled with the
    category's name and carrying ["category_<id>"], followed by the button
    back to the start. *)
Theorem X10_category_list (E : env) (d : database) (query : query_like) (w : world) :
  db E = Some d ->
  let before :=
    [ Log INFO FetchingCategories; Execute SelectCategory;
      Log INFO (FoundCategories (Category_rows d)) ] in
  let ev :=
    match Category_rows d with
    | [] => render_event query no_categories None
    | _ :: _ =>
        render_event query (lit "Selecciona una categoría:")
          (Some (map (fun c => button_row (c_name c) (lit "category_" ++ str_of_Z (c_id c)))
                   (Category_rows d)
                 ++ [ button_row (lit "Regresar al Inicio ↩") (lit "return_start") ]))
    end in
  show_categories E query w
  = (if api_ok E (trace w ++ before) ev then Ok tt else Raise TelegramError,
     add_events w (before ++ [ev])).
Proof.
  intros Hdb before ev. unfold show_categories.
  rewrite bind_log, (bind_execute E SelectCategory d _ _ Hdb eq_refl), bind_log, !add_events_app.
  unfold select_Category in *. subst ev before.
  destruct (Category_rows d) as [|c cs]; rewrite edit_message_text_run, add_events_app;
    reflexivity.
Qed.

(** X11: a press on a button of the category list shows the products of
    that category: the token ["category_" + str(id)] is split and read
    back by [int] as [id], for every identifier, negative ones included.
    Whatever follows a further underscore in the token is ignored. *)
Theorem X11_category_button_round_trip (U : unicode) (R : catalog) (E : env) (u : Update)
    (q : CallbackQuery) (w : world) (id : Z) (rest : str) :
  unicode_wf U -> ascii_digits U ->
  callback_query u = Some q ->
  data q = lit "category_" ++ str_of_Z id ++ rest ->
  rest = [] \/ (exists r, rest = underscore :: r) ->
  api_ok E (trace w) Answer = true ->
  button U R E u w
  = show_products E (RealQuery q) id
      (add_events w [ Answer; Log INFO (CallbackDataReceived (data q)) ]).
Proof.
  intros WF AD Hq Hdata Hrest Hok.
  assert (Hpre : startswith (data q) (lit "category_") = true)
    by (apply startswith_spec; eauto).
  assert (Hmenu : data q <> lit "menu")
    by (intros Heq; rewrite Heq in Hpre; discriminate Hpre).
  assert (Hsplit : split underscore (data q) !! 1%nat = Some (str_of_Z id)).
  { rewrite Hdata.
    change (lit "category_" ++ str_of_Z id ++ rest)
      with (lit "category" ++ underscore :: str_of_Z id ++ rest).
    rewrite split_app_sep.
    2:{ cbv. intros H. repeat (apply elem_of_cons in H as [H | H]; [discriminate H|]).
        inversion H. }
    destruct Hrest as [-> | [r ->]].
    - rewrite app_nil_r, (split_no_sep _ _ (str_of_Z_no_underscore id)). reflexivity.
    - rewrite (split_app_sep _ _ _ (str_of_Z_no_underscore id)). reflexivity. }
  unfold button. rewrite Hq. unfold bind at 1.
  rewrite call_run, Hok, bind_log, add_events_app.
  rewrite (bool_decide_eq_false_2 _ Hmenu), Hpre. unfold str in *. rewrite Hsplit.
  rewrite (int_str_of_Z U WF AD). reflexivity.
Qed.

(** X12: a press on "back to start" runs [start] on the callback update:
    the message under the button is edited twice in a row, first to the
    greeting, then to the menu prompt with the three start buttons. *)
Theorem X12_return_start_edits_twice (U : unicode) (R : catalog) (E : env) (u : Update)
    (q : CallbackQuery) (w : world) :
  callback_query u = Some q ->
  message u = None ->
  data q = lit "return_start" ->
  (forall tr ev, api_ok E tr ev = true) ->
  let chat := chat_id (cq_message q) in
  button U R E u w
  = (Ok tt,
     add_events w
       [ Answer; Log INFO (CallbackDataReceived (data q));
         Log INFO HandlingStart; Log INFO (ChatId chat);
         EditText chat
           (greeting_message R (first_name (cq_from_user q))
              (lit "`" ++ str_of_Z chat ++ lit "`"))
           (Some (lit "Markdown")) None;
         EditText chat (menu_message R) None (Some start_keyboard) ]).
Proof.
  intros Hq Hm Hdata Hok chat.
  unfold button. rewrite Hq. unfold bind at 1. rewrite call_run, Hok, bind_log.
  rewrite add_events_app. cbn [app].
  set (w1 := add_events w [Answer; Log INFO (CallbackDataReceived (data q))]).
  rewrite Hdata.
  repeat match goal with
         | |- context [bool_decide (lit "return_start" = ?t)] =>
             first
               [ rewrite (bool_decide_eq_true_2 (lit "return_start" = t) eq_refl)
               | rewrite (bool_decide_eq_false_2 (lit "return_start" = t))
                   by (cbv; discriminate) ]
         | |- context [startswith (lit "return_start") ?p] =>
             change (startswith (lit "return_start") p) with false
         end.
  cbv beta iota.
  unfold start, start_origin, start_send. rewrite Hm, Hq, !bind_log.
  unfold bind, edit_text. rewrite call_run, Hok. cbv beta iota.
  rewrite call_run, Hok. unfold w1. rewrite !add_events_app, Hdata. reflexivity.
Qed.

(* ===================================================================== *)
(** ** The rounding of a price                                             *)
(* ===================================================================== *)

(** The cents of [rescale2] below exponent -2 are the value rounded to the
    nearest cent, a tie going to the even cent. *)
Lemma rescale2_rounds_half_even (coeff : N) (exp : Z) :
  (exp < -2)%Z ->
  let m := (10 ^ Z.to_N (-2 - exp))%N in
  let q := rescale2 coeff exp in
  (2 * (q * m) <= 2 * coeff + m)%N /\ (2 * coeff <= 2 * (q * m) + m)%N
  /\ ((2 * (q * m) = 2 * coeff + m \/ 2 * coeff = 2 * (q * m) + m)%N -> N.even q = true).
Proof.
  unfold rescale2. intros H. destruct (Z.leb_spec (-2) exp); [lia|]. cbv zeta.
  set (m := (10 ^ Z.to_N (-2 - exp))%N).
  assert (Hm : (m <> 0)%N) by (apply N.pow_nonzero; discriminate).
  pose proof (N.div_mod coeff m Hm) as Hdiv.
  pose proof (N.mod_upper_bound coeff m Hm) as Hr.
  set (q0 := (coeff / m)%N) in *. set (r := (coeff mod m)%N) in *.
  assert (Hqm : (q0 * m = m * q0)%N) by apply N.mul_comm.
  destruct (N.ltb_spec m (2 * r)) as [Hlt | Hge]; simpl.
  - rewrite N.mul_add_distr_r. repeat split; try lia; intros [Ht | Ht]; lia.
  - destruct (N.eqb_spec (2 * r) m) as [Heq | Hne]; simpl.
    + destruct (N.odd q0) eqn:Hodd.
      * rewrite N.mul_add_distr_r. repeat split; try lia;
          intros _; rewrite N.add_1_r, N.even_succ; exact Hodd.
      * repeat split; try lia; intros _; rewrite <- N.negb_odd, Hodd; reflexivity.
    + repeat split; try lia; intros [Ht | Ht]; lia.
Qed.


(* ===================================================================== *)
(** ** What leaves [handle_text], and prices that are missing             *)
(* ===================================================================== *)

(** X14: on the completion path nothing but a refused apology can make
    [handle_text] raise: if Telegram accepts the apology, the handler ends
    normally, whatever the completion API answers and whether or not the
    answer can be sent. *)
Theorem X14_completion_path_ends_normally (U : unicode) (R : catalog) (E : env)
    (u : Update) (m : Message) (w : world) :
  message u = Some m ->
  ~ asks_menu U (text m) ->
  ~ asks_most_ordered U (text m) ->
  (forall tr, api_ok E tr (ReplyText (chat_id m) apology None None) = true) ->
  (handle_text U R E u w).1 = Ok tt.
Proof.
  intros Hm Hmenu Hmost Hok.
  rewrite (handle_text_completion_path U R E u m w Hm Hmenu Hmost). cbv zeta.
  destruct (completion_text U _) as [reply|e].
  - match goal with |- context [api_ok E ?tr ?ev] => destruct (api_ok E tr ev) end;
      [reflexivity|].
    unfold send_apology. cbn [fst]. rewrite Hok. reflexivity.
  - unfold send_apology. cbn [fst]. rewrite Hok. reflexivity.
Qed.

(** X15: a product whose price is NULL cannot be shown: the product list of
    its category, and the most-ordered answer when it is the product
    chosen, raise [TypeError] after the query and send nothing. *)
Theorem X15_null_price_raises (E : env) (d : database) (query : query_like) (w : world) :
  db E = Some d ->
  (forall category_id,
     Exists (fun p => p_price p = None) (select_Product_by_category d category_id) ->
     show_products E query category_id w
     = (Raise TypeError,
        add_events w
          [ Log INFO (FetchingProducts category_id);
            Execute (SelectProductByCategory category_id);
            Log INFO (FoundProducts (select_Product_by_category d category_id)) ]))
  /\ (forall p,
        select_most_ordered_product d = Some p -> p_price p = None ->
        show_most_ordered_product E query w
        = (Raise TypeError,
           add_events w
             [ Log INFO FetchingMostOrdered; Execute SelectMostOrderedProduct;
               Log INFO (MostOrdered (Some p)) ])).
Proof.
  intros Hdb. split.
  - intros category_id Hnull. exact (show_products_unpriced E d query category_id w Hdb Hnull).
  - intros p Hsel Hprice. unfold show_most_ordered_product.
    rewrite bind_log, (bind_execute E SelectMostOrderedProduct d _ _ Hdb eq_refl), Hsel, bind_log.
    unfold format_price. rewrite Hprice. cbv beta iota.
    rewrite !bind_bind, bind_raise, !add_events_app. reflexivity.
Qed.

(* ===================================================================== *)
(** ** The theorems at the concrete restaurant                             *)
(* ===================================================================== *)

Import Fixture.

Lemma not_asks_menu_hola : ~ asks_menu latin1 (lit "hola").
Proof. rewrite <- menu_test. vm_compute. discriminate. Qed.

Lemma not_asks_most_ordered_hola : ~ asks_most_ordered latin1 (lit "hola").
Proof. rewrite <- most_ordered_test. vm_compute. discriminate. Qed.

Lemma C1_completion_failure_apology_witness :
  handle_text latin1 R0 E_down (text_update "hola") empty_world
  = (Ok tt,
     {| chat_data := {[ 7%Z := [ user_turn (lit "hola") ] ]};
        trace := [ Log INFO (ReceivedMessage (lit "hola"));
                   ChatCompletionCreate (lit "gpt-3.5-turbo")
                     [ system_context R0; user_turn (lit "hola") ];
                   Log ERROR (ErrorGenerating OpenAIError);
                   ReplyText 7 apology None None ] |})
  /\ history_of (handle_text latin1 R0 E_down (text_update "hola") empty_world).2 7
     = [ user_turn (lit "hola") ].
Proof.
  apply (C1_completion_failure_apology latin1 R0 E_down (text_update "hola")
           (msg "hola") empty_world OpenAIError).
  - reflexivity.
  - exact not_asks_menu_hola.
  - exact not_asks_most_ordered_hola.
  - reflexivity.
Defined.

Lemma asks_menu_upper : asks_menu latin1 (lit "El MENÚ de hoy").
Proof. apply menu_test. vm_compute. reflexivity. Qed.

Lemma asks_most_ordered_question :
  ~ asks_menu latin1 (lit "¿Cuál es el Producto Más Pedido?")
  /\ asks_most_ordered latin1 (lit "¿Cuál es el Producto Más Pedido?").
Proof.
  split.
  - rewrite <- menu_test. vm_compute. discriminate.
  - apply most_ordered_test. vm_compute. reflexivity.
Qed.

Lemma C2_keyword_routing_witness :
  (routed_to (show_categories E_up) latin1 R0 E_up (text_update "El MENÚ de hoy")
     (msg "El MENÚ de hoy") empty_world
   /\ no_completion_call empty_world
        (handle_text latin1 R0 E_up (text_update "El MENÚ de hoy") empty_world).2)
  /\ (routed_to (show_most_ordered_product E_up) latin1 R0 E_up
        (text_update "¿Cuál es el Producto Más Pedido?")
        (msg "¿Cuál es el Producto Más Pedido?") empty_world
      /\ no_completion_call empty_world
           (handle_text latin1 R0 E_up (text_update "¿Cuál es el Producto Más Pedido?")
              empty_world).2).
Proof.
  split.
  - apply (proj1 (C2_keyword_routing latin1 R0 E_up (text_update "El MENÚ de hoy")
                    (msg "El MENÚ de hoy") empty_world eq_refl)).
    exact asks_menu_upper.
  - apply (proj2 (C2_keyword_routing latin1 R0 E_up
                    (text_update "¿Cuál es el Producto Más Pedido?")
                    (msg "¿Cuál es el Producto Más Pedido?") empty_world eq_refl)).
    + exact (proj1 asks_most_ordered_question).
    + exact (proj2 asks_most_ordered_question).
Defined.

(** A text with "menú" and a "most ordered" phrasing gets the category
    list, not the most-ordered product. *)
Lemma C2_both_keywords_counterexample :
  asks_most_ordered latin1 (text (msg "menú: ¿producto más pedido?"))
  /\ routed_to (show_categories E_up) latin1 R0 E_up
       (text_update "menú: ¿producto más pedido?") (msg "menú: ¿producto más pedido?")
       empty_world
  /\ ~ routed_to (show_most_ordered_product E_up) latin1 R0 E_up
         (text_update "menú: ¿producto más pedido?") (msg "menú: ¿producto más pedido?")
         empty_world.
Proof.
  split; [| split].
  - apply most_ordered_test. vm_compute. reflexivity.
  - vm_compute. reflexivity.
  - unfold routed_to. intros H.
    apply (f_equal (fun x => trace x.2)) in H. vm_compute in H. discriminate H.
Qed.

Lemma C3_most_ordered_product_witness :
  select_most_ordered_product db_orders = Some P1
  /\ select_most_ordered_product db_no_orders = None
  /\ show_most_ordered_product E_no_orders (FakeQuery (msg "producto más vendido")) empty_world
     = (Ok tt,
        add_events empty_world
          [ Log INFO FetchingMostOrdered;
            Execute SelectMostOrderedProduct;
            Log INFO (MostOrdered None);
            ReplyText 7 no_most_ordered None (Some return_otros_keyboard) ]).
Proof.
  split.
  - apply (proj1 (proj2 (C3_most_ordered_product db_orders)) P1 P2).
    + intros p. simpl. rewrite !elem_of_cons, elem_of_nil. tauto.
    + reflexivity.
    + reflexivity.
  - destruct (proj2 (proj2 (C3_most_ordered_product db_no_orders)) eq_refl) as [Hnone Hshow].
    split; [exact Hnone|].
    apply (Hshow E_no_orders (FakeQuery (msg "producto más vendido")) empty_world);
      reflexivity.
Defined.

Lemma no_product_in_category (category_id : Z) :
  category_id <> 1%Z ->
  forall p, p ∈ Product_rows db_orders -> p_categoryId p <> Some category_id.
Proof.
  intros Hne p Hp. simpl in Hp. rewrite !elem_of_cons, elem_of_nil in Hp.
  destruct Hp as [-> | [-> | []]]; simpl; congruence.
Qed.

Lemma C5_list_products_by_category_witness :
  select_Product_by_category db_orders 99 = []
  /\ show_products E_up (RealQuery (query "category_99")) 99 empty_world
     = (Ok tt,
        add_events empty_world
          [ Log INFO (FetchingProducts 99);
            Execute (SelectProductByCategory 99);
            Log INFO (FoundProducts []);
            EditText 7 no_products None None ])
  /\ show_products E_up (RealQuery (query "category_-9223372036854775809"))
       (-9223372036854775809) empty_world
     = (Raise OverflowError,
        add_events empty_world
          [ Log INFO (FetchingProducts (-9223372036854775809));
            Execute (SelectProductByCategory (-9223372036854775809)) ]).
Proof.
  assert (H99 : (99 <> 1)%Z) by discriminate.
  assert (Hlow1 : (-9223372036854775809 <> 1)%Z) by discriminate.
  destruct (proj2 (C5_list_products_by_category db_orders 99)
              (no_product_in_category 99 H99)) as [Hempty Hshow].
  split; [exact Hempty|]. split.
  - apply (proj1 (Hshow E_up (RealQuery (query "category_99")) empty_world eq_refl));
      reflexivity.
  - destruct (proj2 (C5_list_products_by_category db_orders (-9223372036854775809))
                (no_product_in_category _ Hlow1)) as [_ Hlow].
    apply (proj2 (Hlow E_up (RealQuery (query "category_-9223372036854775809"))
                    empty_world eq_refl)).
    reflexivity.
Defined.

(** An identifier that matches no product and is beyond the 64-bit range
    of the driver: the query raises, nothing is sent. *)
Lemma C5_out_of_range_counterexample :
  (forall p, p ∈ Product_rows db_orders -> p_categoryId p <> Some 9223372036854775808%Z)
  /\ show_products E_up (RealQuery (query "category_9223372036854775808"))
       9223372036854775808 empty_world
     = (Raise OverflowError,
        add_events empty_world
          [ Log INFO (FetchingProducts 9223372036854775808);
            Execute (SelectProductByCategory 9223372036854775808) ])
  /\ button latin1 R0 E_up (button_update "category_9223372036854775808") empty_world
     = (Raise OverflowError,
        add_events empty_world
          [ Answer;
            Log INFO (CallbackDataReceived (lit "category_9223372036854775808"));
            Log INFO (FetchingProducts 9223372036854775808);
            Execute (SelectProductByCategory 9223372036854775808) ]).
Proof.
  split; [apply no_product_in_category; discriminate|].
  split; vm_compute; reflexivity.
Qed.

Lemma C6_prompt_is_system_then_history_witness :
  (history_of (handle_text latin1 R0 E_up (text_update "hola") empty_world).2 7
   = [ user_turn (lit "hola"); assistant_turn (lit "¡Hola!") ]
   /\ ChatCompletionCreate (lit "gpt-3.5-turbo") [ system_context R0; user_turn (lit "hola") ]
      ∈ trace (handle_text latin1 R0 E_up (text_update "hola") empty_world).2
   /\ build_messages R0
        (history_of (handle_text latin1 R0 E_up (text_update "hola") empty_world).2 7)
      = [ system_context R0; user_turn (lit "hola"); assistant_turn (lit "¡Hola!") ])
  /\ (store_ok (run latin1 R0 three_updates empty_world)
      /\ forall model messages,
           ChatCompletionCreate model messages ∈ trace (run latin1 R0 three_updates empty_world) ->
           exists h, messages = system_context R0 :: h /\ no_system h).
Proof.
  split.
  - apply (proj1 (proj2 (C6_prompt_is_system_then_history latin1 R0))
             E_up (text_update "hola") (msg "hola") empty_world (lit "¡Hola!")).
    + reflexivity.
    + exact not_asks_menu_hola.
    + exact not_asks_most_ordered_hola.
    + vm_compute. reflexivity.
  - apply (proj2 (proj2 (C6_prompt_is_system_then_history latin1 R0))
             three_updates empty_world).
    + intros chat h H. simpl in H. rewrite lookup_empty in H. discriminate H.
    + constructor.
Defined.


Example format_2f_examples :
  format_2f (Finite false 1999 (-2)) = lit "19.99"
  /\ format_2f (Finite false 125 (-1)) = lit "12.50"
  /\ format_2f (Finite false 3 0) = lit "3.00"
  /\ format_2f (Finite false 5 (-3)) = lit "0.00"
  /\ format_2f (Finite false 15 (-3)) = lit "0.02"
  /\ format_2f (Finite true 2675 (-3)) = lit "-2.68"
  /\ format_2f (Finite true 0 0) = lit "-0.00"
  /\ format_2f (Infinity true) = lit "-Infinity"
  /\ format_2f (NaN false false 0) = lit "NaN"
  /\ format_2f (NaN false true 45) = lit "sNaN45".
Proof. repeat split; reflexivity. Qed.


Lemma C8_start_origin_witness :
  start R0 E_up empty_update empty_world
  = (Ok tt, add_events empty_world [ Log INFO HandlingStart; Log WARNING NoMessageOrCallback ])
  /\ start_origin (text_update "/start") = Some (lit "Ana", 7%Z)
  /\ start_origin (button_update "return_start") = Some (lit "Ana", 7%Z).
Proof.
  split; [| split].
  - apply (proj1 (C8_start_origin R0 E_up empty_update empty_world)); reflexivity.
  - apply (proj1 (proj2 (C8_start_origin R0 E_up (text_update "/start") empty_world))
             (msg "/start") eq_refl).
  - apply (proj2 (proj2 (C8_start_origin R0 E_up (button_update "return_start") empty_world))
             (query "return_start") eq_refl eq_refl).
Defined.

Lemma not_recognized_hola : ~ recognized (lit "hola").
Proof.
  intros [Hin | Hpre]; [| discriminate Hpre].
  unfold exact_tokens in Hin.
  repeat (apply elem_of_cons in Hin as [Heq | Hin]; [cbv in Heq; discriminate Heq|]).
  inversion Hin.
Qed.

Lemma C9_unrecognized_token_witness :
  button latin1 R0 E_up (button_update "hola") empty_world
  = (Ok tt, add_events empty_world [ Answer; Log INFO (CallbackDataReceived (lit "hola")) ])
  /\ button latin1 R0 E_up (button_update "product_2") empty_world
     = (Ok tt,
        add_events empty_world [ Answer; Log INFO (CallbackDataReceived (lit "product_2")) ]).
Proof.
  split.
  - apply (proj1 (C9_unrecognized_token latin1 R0 E_up (button_update "hola") (query "hola")
                    empty_world eq_refl eq_refl)).
    exact not_recognized_hola.
  - apply (proj2 (C9_unrecognized_token latin1 R0 E_up (button_update "product_2")
                    (query "product_2") empty_world eq_refl eq_refl) (lit "2")).
    reflexivity.
Defined.

Lemma C10_category_token_witness :
  exists segment rest,
    data (query "category_12") = lit "category_" ++ segment ++ rest
    /\ (underscore ∉ segment)
    /\ (rest = [] \/ exists r, rest = underscore :: r)
    /\ split underscore (data (query "category_12")) !! 1%nat = Some segment
    /\ ((exists z, int latin1 segment = Some z) <-> decimal_literal latin1 segment)
    /\ (forall z, int latin1 segment = Some z ->
        button latin1 R0 E_up (button_update "category_12") empty_world
        = show_products E_up (RealQuery (query "category_12")) z
            (add_events empty_world
               [ Answer; Log INFO (CallbackDataReceived (data (query "category_12"))) ]))
    /\ (~ decimal_literal latin1 segment ->
        button latin1 R0 E_up (button_update "category_12") empty_world
        = (Raise ValueError,
           add_events empty_world
             [ Answer; Log INFO (CallbackDataReceived (data (query "category_12"))) ])).
Proof.
  apply (C10_category_token latin1 R0 E_up (button_update "category_12") (query "category_12")
           empty_world).
  - exact latin1_wf.
  - reflexivity.
  - reflexivity.
  - reflexivity.
Defined.

Example button_category_tokens :
  button latin1 R0 E_up (button_update "category_12") empty_world
  = show_products E_up (RealQuery (query "category_12")) 12
      (add_events empty_world [ Answer; Log INFO (CallbackDataReceived (lit "category_12")) ])
  /\ (button latin1 R0 E_up (button_update "category_x") empty_world).1 = Raise ValueError
  /\ (button latin1 R0 E_up (button_update "category_") empty_world).1 = Raise ValueError
  /\ (button latin1 R0 E_up (button_update "category_1_9") empty_world).1 = Ok tt.
Proof. repeat split; vm_compute; reflexivity. Qed.

(* ===================================================================== *)
(** ** The further properties at the concrete restaurant                   *)
(* ===================================================================== *)

Lemma X3_other_chats_untouched_witness :
  chat_data (handle latin1 R0 E_up OnText (text_update "hola") empty_world).2 !! 8%Z
  = chat_data empty_world !! 8%Z.
Proof.
  apply (X3_other_chats_untouched latin1 R0 E_up OnText (text_update "hola") empty_world 8).
  intros m Hm. injection Hm as <-. discriminate.
Defined.

Lemma X5_answers_follow_questions_witness :
  chat_data (run latin1 R0 three_updates empty_world) !! 7%Z
  = Some [ user_turn (lit "hola"); assistant_turn (lit "¡Hola!");
           user_turn (lit "¿tienen postres?") ]
  /\ answers_follow_questions
       [ user_turn (lit "hola"); assistant_turn (lit "¡Hola!");
         user_turn (lit "¿tienen postres?") ].
Proof.
  assert (H : chat_data (run latin1 R0 three_updates empty_world) !! 7%Z
              = Some [ user_turn (lit "hola"); assistant_turn (lit "¡Hola!");
                       user_turn (lit "¿tienen postres?") ])
    by (vm_compute; reflexivity).
  split; [exact H|].
  apply (X5_answers_follow_questions latin1 R0 three_updates empty_world) with (chat := 7%Z);
    [| exact H].
  intros chat h H0. simpl in H0. rewrite lookup_empty in H0. discriminate H0.
Defined.

Lemma X6_database_failure_propagates_witness :
  show_products E_db_down (RealQuery (query "category_1")) 1 empty_world
  = (Raise DBAPIError,
     add_events empty_world [ Log INFO (FetchingProducts 1); Execute (SelectProductByCategory 1) ])
  /\ handle_text latin1 R0 E_db_down (text_update "El MENÚ de hoy") empty_world
     = (Raise DBAPIError,
        add_events empty_world
          [ Log INFO (ReceivedMessage (lit "El MENÚ de hoy"));
            Log INFO FetchingCategories; Execute SelectCategory ]).
Proof.
  destruct (X6_database_failure_propagates E_db_down empty_world eq_refl)
    as (_ & Hproducts & _ & Htext).
  split.
  - apply Hproducts.
  - apply (Htext latin1 R0 (text_update "El MENÚ de hoy") (msg "El MENÚ de hoy") eq_refl).
    exact asks_menu_upper.
Defined.

Lemma X7_reply_failure_keeps_assistant_turn_witness :
  handle_text latin1 R0 E_reply_lost (text_update "hola") empty_world
  = (Ok tt,
     {| chat_data := {[ 7%Z := [ user_turn (lit "hola"); assistant_turn (lit "¡Hola!") ] ]};
        trace := [ Log INFO (ReceivedMessage (lit "hola"));
                   ChatCompletionCreate (lit "gpt-3.5-turbo")
                     [ system_context R0; user_turn (lit "hola") ];
                   ReplyText 7 (lit "¡Hola!") None None;
                   Log ERROR (ErrorGenerating TelegramError);
                   ReplyText 7 apology None None ] |}).
Proof.
  apply (X7_reply_failure_keeps_assistant_turn latin1 R0 E_reply_lost (text_update "hola")
           (msg "hola") empty_world (lit "¡Hola!")).
  - reflexivity.
  - exact not_asks_menu_hola.
  - exact not_asks_most_ordered_hola.
  - vm_compute. reflexivity.
  - reflexivity.
Defined.

Lemma X8_most_ordered_counts_lines_witness :
  (select_most_ordered_product db_units = Some P1
   /\ select_most_ordered_product db_units_relabelled = Some P1)
  /\ count_lines (db_tie by_id) P1 = count_lines (db_tie by_id_desc) P1.
Proof.
  split.
  - apply (proj2 (proj2 (X8_most_ordered_counts_lines db_units db_units_relabelled
                           eq_refl eq_refl)) P1).
    + simpl. rewrite !elem_of_cons. tauto.
    + vm_compute. lia.
    + intros p' Hp' Hle. simpl in Hp'. rewrite !elem_of_cons, elem_of_nil in Hp'.
      destruct Hp' as [-> | [-> | []]]; first [reflexivity | vm_compute in Hle; lia].
  - apply (proj1 (X8_most_ordered_counts_lines (db_tie by_id) (db_tie by_id_desc)
                    eq_refl eq_refl)).
Defined.

Example two_lines_beat_a_hundred_units : select_most_ordered_product db_units = Some P1.
Proof. reflexivity. Qed.

(** With one order-line each, the engine decides between P1 and P2. *)
Example tie_is_the_engine's :
  select_most_ordered_product (db_tie by_id) = Some P1
  /\ select_most_ordered_product (db_tie by_id_desc) = Some P2.
Proof. split; reflexivity. Qed.

Lemma X9_start_ignores_the_clock_witness :
  start R0 E_up (text_update "/start") empty_world
  = start R0 E_night (text_update "/start") empty_world.
Proof.
  apply X9_start_ignores_the_clock. intros tr ev. reflexivity.
Defined.

Lemma X10_category_list_witness :
  show_categories E_up (RealQuery (query "menu")) empty_world
  = (Ok tt,
     add_events empty_world
       [ Log INFO FetchingCategories; Execute SelectCategory;
         Log INFO (FoundCategories [ bebidas ]);
         EditText 7 (lit "Selecciona una categoría:") None
           (Some [ button_row (lit "Bebidas") (lit "category_1");
                   button_row (lit "Regresar al Inicio ↩") (lit "return_start") ]) ]).
Proof.
  apply (X10_category_list E_up db_orders (RealQuery (query "menu")) empty_world eq_refl).
Defined.

Lemma X11_category_button_round_trip_witness :
  button latin1 R0 E_up (button_update "category_-3_x") empty_world
  = show_products E_up (RealQuery (query "category_-3_x")) (-3)
      (add_events empty_world
         [ Answer; Log INFO (CallbackDataReceived (lit "category_-3_x")) ]).
Proof.
  apply (X11_category_button_round_trip latin1 R0 E_up (button_update "category_-3_x")
           (query "category_-3_x") empty_world (-3) (lit "_x")).
  - exact latin1_wf.
  - exact latin1_ascii_digits.
  - reflexivity.
  - reflexivity.
  - right. exists (lit "x"). reflexivity.
  - reflexivity.
Defined.

Lemma X12_return_start_edits_twice_witness :
  button latin1 R0 E_up (button_update "return_start") empty_world
  = (Ok tt,
     add_events empty_world
       [ Answer; Log INFO (CallbackDataReceived (lit "return_start"));
         Log INFO HandlingStart; Log INFO (ChatId 7);
         EditText 7 (lit "Hola Ana, tu chat es `7`") (Some (lit "Markdown")) None;
         EditText 7 (lit "¿En qué puedo ayudarte?") None (Some start_keyboard) ]).
Proof.
  apply (X12_return_start_edits_twice latin1 R0 E_up (button_update "return_start")
           (query "return_start") empty_world).
  - reflexivity.
  - reflexivity.
  - reflexivity.
  - intros tr ev. reflexivity.
Defined.


Lemma X14_completion_path_ends_normally_witness :
  (handle_text latin1 R0 E_reply_lost (text_update "hola") empty_world).1 = Ok tt
  /\ (handle_text latin1 R0 E_down (text_update "hola") empty_world).1 = Ok tt.
Proof.
  split.
  - apply (X14_completion_path_ends_normally latin1 R0 E_reply_lost (text_update "hola")
             (msg "hola") empty_world eq_refl not_asks_menu_hola not_asks_most_ordered_hola).
    intros tr. reflexivity.
  - apply (X14_completion_path_ends_normally latin1 R0 E_down (text_update "hola")
             (msg "hola") empty_world eq_refl not_asks_menu_hola not_asks_most_ordered_hola).
    intros tr. reflexivity.
Defined.

Lemma X15_null_price_raises_witness :
  show_products E_unpriced (RealQuery (query "category_2")) 2 empty_world
  = (Raise TypeError,
     add_events empty_world
       [ Log INFO (FetchingProducts 2); Execute (SelectProductByCategory 2);
         Log INFO (FoundProducts [ P3 ]) ])
  /\ show_most_ordered_product E_unpriced (RealQuery (query "producto_mas_pedido")) empty_world
     = (Raise TypeError,
        add_events empty_world
          [ Log INFO FetchingMostOrdered; Execute SelectMostOrderedProduct;
            Log INFO (MostOrdered (Some P3)) ]).
Proof.
  split.
  - apply (proj1 (X15_null_price_raises E_unpriced db_unpriced
                    (RealQuery (query "category_2")) empty_world eq_refl) 2%Z).
    constructor. reflexivity.
  - apply (proj2 (X15_null_price_raises E_unpriced db_unpriced
                    (RealQuery (query "producto_mas_pedido")) empty_world eq_refl) P3);
      reflexivity.
Defined.
